(** * git-commitment: BLE fitness telemetry (projects/git-commitment/main.go)

    A shallow embedding of the notification decoders, of [MetricSource]
    (sink registration and fan-out), of the scan callback of [scanDevices],
    of the registry tables, of the repeatable flag and of the set-up of a
    connected device in [main], together with the properties stated about
    them.

    Conventions.
    - A Go [[]byte] is a [list byte]; a Go [byte], [uint16], [int16] or [int]
      is a [Z] in the range of its type; bit operations are those of [Z].
    - A run-time panic (an index or slice bound out of range) is the outcome
      [Panicked]; everything else ends in [Returned].
    - Effects on the outside (a send on a sink channel, a call to
      [EnableNotifications], a line on standard error) are appended to a
      trace, in the order in which the program performs them.  A send is
      recorded where the hand-off [sink <- m] happens; scheduling of the
      receiving goroutines is outside this model. *)

From Stdlib Require Import ZArith Strings.Byte.
From stdpp Require Import base list strings gmap.

Local Open Scope Z_scope.

(** ** Bytes and fixed-width integers *)

Module Bytes.

(** [uint16(b)] / [int(b)] of a Go byte. *)
Definition byteZ (b : byte) : Z := Z.of_N (Byte.to_N b).

(** The slice expression [buf[k:]]: panics when [k > len(buf)]. *)
Definition sliceFrom (k : nat) (buf : list byte) : option (list byte) :=
  if (k <=? length buf)%nat then Some (drop k buf) else None.

(** The index expression [buf[i]]: panics when [i >= len(buf)]. *)
Definition index (buf : list byte) (i : nat) : option byte := buf !! i.

(** [binary.LittleEndian.Uint16(b)]:
    [_ = b[1]; return uint16(b[0]) | uint16(b[1])<<8]. *)
Definition LittleEndian_Uint16 (b : list byte) : option Z :=
  match b with
  | b0 :: b1 :: _ => Some (Z.lor (byteZ b0) (Z.shiftl (byteZ b1) 8))
  | _ => None
  end.

(** The conversion [int16(u)] of a [uint16]: same 16 bits, read in
    two's complement. *)
Definition int16 (u : Z) : Z :=
  let r := u mod 65536 in
  if r <? 32768 then r else r - 65536.

(** Reference readings of two bytes as a little-endian 16-bit integer,
    unsigned and signed, in plain arithmetic. *)
Definition uint16_le (lo hi : byte) : Z := byteZ lo + 256 * byteZ hi.

Definition sint16_le (lo hi : byte) : Z :=
  let u := byteZ lo + 256 * byteZ hi in
  if u <? 32768 then u else u - 65536.

End Bytes.
Import Bytes.

(** ** Identifiers of the Bluetooth library

    [bluetooth.UUID] values are compared and used as map keys only.  The
    constants below are the 16-bit numbers assigned by the Bluetooth SIG to
    the services and characteristics the program names. *)

Definition UUID := N.

Definition ServiceUUIDCyclingSpeedAndCadence : UUID := 0x1816%N.
Definition ServiceUUIDCyclingPower : UUID := 0x1818%N.
Definition ServiceUUIDHeartRate : UUID := 0x180D%N.
Definition CharacteristicUUIDCyclingPowerMeasurement : UUID := 0x2A63%N.
Definition CharacteristicUUIDHeartRateMeasurement : UUID := 0x2A37%N.

Definition KnownServiceUUIDs : list UUID :=
  [ ServiceUUIDCyclingSpeedAndCadence;
    ServiceUUIDCyclingPower;
    ServiceUUIDHeartRate ].

Definition KnownServiceNames : gmap N string :=
  <[ ServiceUUIDCyclingPower := "Cycling Power"%string ]>
  (<[ ServiceUUIDHeartRate := "Heart Rate"%string ]> ∅).

(** ** Metrics *)

Inductive MetricKind :=
| MetricHeartRate
| MetricCyclingPower
| MetricCyclingSpeed
| MetricCyclingCadence.

Record DeviceMetric := mkDeviceMetric {
  kind : MetricKind;
  value : Z
}.

(** ** The outside world *)

(** A [chan DeviceMetric] is a reference; two sinks are the same channel
    exactly when they carry the same identity. *)
Definition Chan := nat.

(** The two method values [notificationHandler] can return. *)
Inductive Handler :=
| HandleCyclingPowerMeasurement
| HandleHeartRateMeasurement.

Inductive Event :=
| EvSend (sink : Chan) (m : DeviceMetric)
| EvEnableNotifications (ch : UUID) (handler : option Handler)
| EvBugMissingHandler (ch : UUID).

Definition World := list Event.

Inductive outcome (A : Type) :=
| Returned (a : A)
| Panicked.
Arguments Returned {A} a.
Arguments Panicked {A}.

(** ** A state-and-panic monad over the trace *)

Definition M (A : Type) : Type := World -> outcome (A * World).

Definition ret {A} (a : A) : M A := fun w => Returned (a, w).

Definition bind {A B} (m : M A) (k : A -> M B) : M B :=
  fun w => match m w with
           | Returned (a, w') => k a w'
           | Panicked => Panicked
           end.

Definition panic {A} : M A := fun _ => Panicked.

Definition perform (e : Event) : M unit := fun w => Returned (tt, w ++ [e]).

(** An operation of the run time that may panic. *)
Definition checked {A} (o : option A) : M A :=
  match o with
  | Some a => ret a
  | None => panic
  end.

Notation "'let!' x ':=' m 'in' k" := (bind m (fun x => k))
  (at level 10, x name, m at level 100, k at level 200).
Notation "'do!' m 'in' k" := (bind m (fun _ => k))
  (at level 10, m at level 100, k at level 200).

(** [for _, x := range xs { body x }] *)
Fixpoint forRange {A} (xs : list A) (body : A -> M unit) : M unit :=
  match xs with
  | [] => ret tt
  | x :: xs' => do! body x in forRange xs' body
  end.

(** ** MetricSource *)

Record MetricSource := mkMetricSource {
  sinks : list Chan;
  svc : UUID;
  ch : UUID
}.

Definition NewMetricSource (svc ch : UUID) : MetricSource :=
  {| sinks := []; svc := svc; ch := ch |}.

Definition emit (src : MetricSource) (m : DeviceMetric) : M unit :=
  forRange (sinks src) (fun sink => perform (EvSend sink m)).

Definition notificationHandler (src : MetricSource) : M (option Handler) :=
  if decide (ch src = CharacteristicUUIDCyclingPowerMeasurement) then
    ret (Some HandleCyclingPowerMeasurement)
  else if decide (ch src = CharacteristicUUIDHeartRateMeasurement) then
    ret (Some HandleHeartRateMeasurement)
  else
    do! perform (EvBugMissingHandler (ch src)) in
    ret None.

(** [AddSink] has a pointer receiver: the updated source is returned. *)
Definition AddSink (src : MetricSource) (sink : Chan) : M MetricSource :=
  let src := {| sinks := sinks src ++ [sink]; svc := svc src; ch := ch src |} in
  if (length (sinks src) =? 1)%nat then
    let! handler := notificationHandler src in
    do! perform (EvEnableNotifications (ch src) handler) in
    ret src
  else
    ret src.

(** ** Heart Rate Measurement *)

Definition HeartRateFlagSize : Z := Z.shiftl 1 0.
Definition HeartRateFlagContactStatus : Z := Z.lor (Z.shiftl 1 1) (Z.shiftl 1 2).
Definition HeartRateFlagHasEnergyExpended : Z := Z.shiftl 1 3.
Definition HeartRateFlagHasRRInterval : Z := Z.shiftl 1 4.

(** The locals [is16Bit], [contactStatus], [contactSupported] and
    [contactFound] of the handler, as functions of the flags byte. *)
Definition is16Bit (flag : Z) : bool :=
  negb (Z.land flag HeartRateFlagSize =? 0).
Definition contactStatus (flag : Z) : Z :=
  Z.shiftr (Z.land flag HeartRateFlagContactStatus) 1.
Definition contactSupported (flag : Z) : bool :=
  negb (Z.land (contactStatus flag) 2 =? 0).
Definition contactFound (flag : Z) : bool :=
  negb (Z.land (contactStatus flag) 1 =? 0).

Definition handleHeartRateMeasurement (src : MetricSource) (buf : list byte)
  : M unit :=
  if (length buf <? 2)%nat then ret tt
  else
    let! flag := checked (byteZ <$> index buf 0) in
    if contactSupported flag && negb (contactFound flag) then ret tt
    else
      let! hr := checked (byteZ <$> index buf 1) in
      let! hr := (if is16Bit flag then
                    let! tl := checked (sliceFrom 1 buf) in
                    let! u := checked (LittleEndian_Uint16 tl) in
                    ret (int16 u)
                  else ret hr) in
      emit src {| kind := MetricHeartRate; value := hr |}.

(** ** Cycling Power Measurement *)

Definition CyclingPowerFlagHasPedalPowerBalance : Z := Z.shiftl 1 0.
Definition CyclingPowerFlagPedalPowerBalanceReference : Z := Z.shiftl 1 1.
Definition CyclingPowerFlagHasAccumulatedTorque : Z := Z.shiftl 1 2.
Definition CyclingPowerFlagAccumulatedTorqueSource : Z := Z.shiftl 1 3.
Definition CyclingPowerFlagHasWheelRevolution : Z := Z.shiftl 1 4.
Definition CyclingPowerFlagHasCrankRevolution : Z := Z.shiftl 1 5.

(** The Go function has no result.  The model returns the final value of
    its local variable [offset], and [None] on the returns that come before
    the variable is declared, so that the walk over the optional fields can
    be spoken about. *)
Definition handleCyclingPowerMeasurement (src : MetricSource) (buf : list byte)
  : M (option Z) :=
  if (length buf <? 2)%nat then ret None
  else
    let! hd := checked (sliceFrom 0 buf) in
    let! flags := checked (LittleEndian_Uint16 hd) in
    let! tl := checked (sliceFrom 2 buf) in
    let! u := checked (LittleEndian_Uint16 tl) in
    let powerWatts := int16 u in
    if powerWatts =? 0 then ret None
    else
      do! emit src {| kind := MetricCyclingPower; value := powerWatts |} in
      let offset := 4 in
      let offset :=
        if negb (Z.land flags CyclingPowerFlagHasPedalPowerBalance =? 0)
        then offset + 1 else offset in
      let offset :=
        if negb (Z.land flags CyclingPowerFlagHasAccumulatedTorque =? 0)
        then offset + 2 else offset in
      let offset :=
        if negb (Z.land flags CyclingPowerFlagHasWheelRevolution =? 0)
        then offset + (4 + 2) else offset in
      let offset :=
        if negb (Z.land flags CyclingPowerFlagHasCrankRevolution =? 0)
        then offset + (2 + 2) else offset in
      ret (Some offset).

(** What the transport does with a payload once a handler is installed. *)
Definition runHandler (h : Handler) (src : MetricSource) (buf : list byte)
  : M unit :=
  match h with
  | HandleCyclingPowerMeasurement =>
      do! handleCyclingPowerMeasurement src buf in ret tt
  | HandleHeartRateMeasurement => handleHeartRateMeasurement src buf
  end.

(** A sequence of [AddSink] calls on one source. *)
Fixpoint addSinks (src : MetricSource) (new : list Chan) : M MetricSource :=
  match new with
  | [] => ret src
  | sink :: new' => let! src := AddSink src sink in addSinks src new'
  end.

(** ** Scan mode *)

Record ScanResult := mkScanResult {
  Address : string;
  LocalName : string;
  ServiceUUIDs : list UUID;
  RSSI : Z
}.

Definition HasServiceUUID (result : ScanResult) (s : UUID) : bool :=
  bool_decide (s ∈ ServiceUUIDs result).

(** The arguments of the [fmt.Printf] call that reports a device. *)
Record ScanReport := mkScanReport {
  reportAddress : string;
  reportLocalName : string;
  reportServices : string;
  reportRSSI : Z
}.

Record ScanState := mkScanState {
  addrsChecked : gmap string bool;
  stdout : list ScanReport
}.

Definition scanStart : ScanState :=
  {| addrsChecked := ∅; stdout := [] |}.

(** The loop over [KnownServiceUUIDs]; a missing key of
    [KnownServiceNames] reads as the empty string. *)
Definition matchedServiceNames (result : ScanResult) : list string :=
  foldl (fun serviceNames s =>
           if negb (HasServiceUUID result s) then serviceNames
           else serviceNames ++ [default EmptyString (KnownServiceNames !! s)])
        [] KnownServiceUUIDs.

Definition onScanResult (st : ScanState) (result : ScanResult) : ScanState :=
  match addrsChecked st !! Address result with
  | Some _ => st
  | None =>
      let checked' := <[ Address result := true ]> (addrsChecked st) in
      let serviceNames := matchedServiceNames result in
      if (length serviceNames =? 0)%nat then
        {| addrsChecked := checked'; stdout := stdout st |}
      else
        {| addrsChecked := checked';
           stdout := stdout st ++
             [ {| reportAddress := Address result;
                  reportLocalName := LocalName result;
                  reportServices := String.concat "," serviceNames;
                  reportRSSI := RSSI result |} ] |}
  end.

(** [adapter.Scan(onScanResult)] on the scan results that arrive. *)
Definition Scan (results : list ScanResult) : ScanState :=
  foldl onScanResult scanStart results.

(** ** Observations on a trace *)

(** The sends that [emit src m] performs, in order. *)
Definition fanout (src : MetricSource) (m : DeviceMetric) : list Event :=
  (fun sink => EvSend sink m) <$> sinks src.

(** Who received what, in order of delivery. *)
Definition deliveries (w : World) : list (Chan * DeviceMetric) :=
  omap (fun e => match e with
                 | EvSend sink m => Some (sink, m)
                 | _ => None
                 end) w.

Definition isEnableNotifications (e : Event) : bool :=
  match e with
  | EvEnableNotifications _ _ => true
  | _ => false
  end.

(** How many times [EnableNotifications] was called. *)
Definition subscriptions (w : World) : nat :=
  length (List.filter isEnableNotifications w).

(** The offset after the optional fields, from the flag bits alone. *)
Definition trailingOffset (flags : Z) : Z :=
  4 + (if Z.testbit flags 0 then 1 else 0)
    + (if Z.testbit flags 2 then 2 else 0)
    + (if Z.testbit flags 4 then 6 else 0)
    + (if Z.testbit flags 5 then 4 else 0).

(** The invariant of the scan: every reported address is in
    [addrsChecked], no address is reported twice, and only addresses of scan
    results are in [addrsChecked]. *)
Definition scan_inv (results : list ScanResult) (st : ScanState) : Prop :=
  (forall a, a ∈ reportAddress <$> stdout st ->
             is_Some (addrsChecked st !! a))
  /\ NoDup (reportAddress <$> stdout st)
  /\ (forall a, is_Some (addrsChecked st !! a) -> a ∈ Address <$> results).

(** Sample values used in the examples. *)
Definition probe : MetricSource :=
  {| sinks := [7%nat]; svc := ServiceUUIDHeartRate;
     ch := CharacteristicUUIDHeartRateMeasurement |}.

Definition heartRate (v : Z) : DeviceMetric :=
  {| kind := MetricHeartRate; value := v |}.
Definition cyclingPower (v : Z) : DeviceMetric :=
  {| kind := MetricCyclingPower; value := v |}.

(** ** The rest of the registry *)

Definition KnownServiceCharacteristicUUIDs : gmap N (list UUID) :=
  <[ ServiceUUIDCyclingPower := [CharacteristicUUIDCyclingPowerMeasurement] ]>
  (<[ ServiceUUIDHeartRate := [CharacteristicUUIDHeartRateMeasurement] ]> ∅).

Definition KnownCharacteristicNames : gmap N string :=
  <[ CharacteristicUUIDCyclingPowerMeasurement := "Cycling Power Measure"%string ]>
  (<[ CharacteristicUUIDHeartRateMeasurement := "Heart Rate Measurement"%string ]>
   ∅).

(** [MetricSource.Name].  [uuidString] stands for the library's
    [bluetooth.UUID.String]. *)
Definition Name (uuidString : UUID -> string) (src : MetricSource) : string :=
  match KnownCharacteristicNames !! ch src with
  | Some name => name
  | None => ("<unknown: " ++ uuidString (ch src) ++ ">")%string
  end.

(** ** The repeatable command-line flag *)

Definition repeatableFlag := list string.

(** [repeatableFlag.String] *)
Definition repeatableFlag_String (i : repeatableFlag) : string :=
  String.concat "," i.

(** [repeatableFlag.Set]: the updated flag and the error, which is always
    [nil]. *)
Definition repeatableFlag_Set (i : repeatableFlag) (value : string)
  : repeatableFlag * option string :=
  (i ++ [value], None).

(** [flag.Parse] calls [Set] once for each occurrence of the flag. *)
Definition parseOccurrences (values : list string) : repeatableFlag :=
  foldl (fun i value => fst (repeatableFlag_Set i value)) [] values.

(** ** Setting up a connected device

    The body of the loop of [main] over the connected devices.  The two
    discovery calls belong to the Bluetooth library: a device is given here
    by what they answer, [None] for an error, on which [main] panics. *)

Record DeviceService := mkDeviceService {
  serviceUUID : UUID;
  DiscoverCharacteristics : list UUID -> option (list UUID)
}.

Record Device := mkDevice {
  DiscoverServices : list UUID -> option (list DeviceService)
}.

Definition tab : string := String (Ascii.ascii_of_nat 9) EmptyString.
Definition newline : string := String (Ascii.ascii_of_nat 10) EmptyString.

(** What [main] has printed on standard output and the sources it has
    made, both in order. *)
Record Session := mkSession {
  console : list string;
  sources : list MetricSource
}.

Definition printed (line : string) (s : Session) : Session :=
  {| console := console s ++ [line]; sources := sources s |}.

(** [for _, x := range xs { body }] with the session threaded through. *)
Fixpoint forRangeS {A} (xs : list A) (body : A -> Session -> M Session)
         (s : Session) : M Session :=
  match xs with
  | [] => ret s
  | x :: xs' => let! s := body x s in forRangeS xs' body s
  end.

Definition setupCharacteristic (metricsChan : Chan) (service char : UUID)
           (s : Session) : M Session :=
  let name := default EmptyString (KnownCharacteristicNames !! char) in
  let s := printed (tab ++ tab ++ "characteristic: " ++ name ++ newline)%string s in
  let src := NewMetricSource service char in
  let! src := AddSink src metricsChan in
  ret {| console := console s; sources := sources s ++ [src] |}.

Definition setupService (uuidString : UUID -> string) (metricsChan : Chan)
           (service : DeviceService) (s : Session) : M Session :=
  let s :=
    match KnownServiceNames !! serviceUUID service with
    | Some name => printed (tab ++ "service: " ++ name ++ newline)%string s
    | None =>
        printed (tab ++ "service: unknown <"
                     ++ uuidString (serviceUUID service) ++ ">" ++ newline)%string s
    end in
  let knownChars :=
    default [] (KnownServiceCharacteristicUUIDs !! serviceUUID service) in
  let! chars := checked (DiscoverCharacteristics service knownChars) in
  forRangeS chars (setupCharacteristic metricsChan (serviceUUID service)) s.

Definition setupDevice (uuidString : UUID -> string) (metricsChan : Chan)
           (device : Device) (s : Session) : M Session :=
  let s := printed ("Initializing device..." ++ newline)%string s in
  let! services := checked (DiscoverServices device KnownServiceUUIDs) in
  forRangeS services (setupService uuidString metricsChan) s.

(** ** Further observations *)

(** What channel [c] has received, in order. *)
Definition received (c : Chan) (w : World) : list DeviceMetric :=
  omap (fun e => match e with
                 | EvSend sink m => if decide (sink = c) then Some m else None
                 | _ => None
                 end) w.

Definition isBugMissingHandler (e : Event) : bool :=
  match e with
  | EvBugMissingHandler _ => true
  | _ => false
  end.

(** How many times the line "BUG: missing notification handler" was
    printed. *)
Definition bugLines (w : World) : nat :=
  length (List.filter isBugMissingHandler w).

(** The report the scan callback prints for a scan result. *)
Definition reportOf (result : ScanResult) : ScanReport :=
  {| reportAddress := Address result;
     reportLocalName := LocalName result;
     reportServices := String.concat "," (matchedServiceNames result);
     reportRSSI := RSSI result |}.

(** The filter [main] passes to [DiscoverCharacteristics] for a service: a
    service without an entry in the table gets the nil slice. *)
Definition knownCharsOf (service : DeviceService) : list UUID :=
  default [] (KnownServiceCharacteristicUUIDs !! serviceUUID service).

(** Whether a characteristic is without display name, and so without
    handler. *)
Definition unnamed (c : UUID) : bool :=
  bool_decide (KnownCharacteristicNames !! c = None).

(** The source [main] makes for a characteristic of a service. *)
Definition sourceFor (metricsChan : Chan) (p : UUID * UUID) : MetricSource :=
  {| sinks := [metricsChan]; svc := fst p; ch := snd p |}.

(** The characteristics a device answers with, service by service. *)
Definition discovered (services : list DeviceService) : list (UUID * UUID) :=
  services ≫= fun service =>
    match DiscoverCharacteristics service
            (default [] (KnownServiceCharacteristicUUIDs !! serviceUUID service))
    with
    | Some chars => (fun c => (serviceUUID service, c)) <$> chars
    | None => []
    end.

(** * Properties *)

(** ** Fixed-width arithmetic *)

Section Arithmetic.

Lemma byteZ_range (b : byte) : 0 <= byteZ b < 256.
Proof.
  unfold byteZ. pose proof (Byte.to_N_bounded b). lia.
Qed.

Lemma testbit_small (a n : Z) :
  0 <= a < 2 ^ 8 -> 8 <= n -> Z.testbit a n = false.
Proof.
  intros Ha Hn.
  rewrite <- (Z.mod_small a (2 ^ 8)) by exact Ha.
  apply Z.mod_pow2_bits_high. lia.
Qed.

Lemma lor_shiftl_8 (a b : Z) :
  0 <= a < 256 -> Z.lor a (Z.shiftl b 8) = a + 256 * b.
Proof.
  intros Ha.
  assert (Hdisj : Z.land a (Z.shiftl b 8) = 0).
  { apply Z.bits_inj'. intros n Hn.
    rewrite Z.land_spec, Z.bits_0.
    destruct (Z_lt_ge_dec n 8) as [Hlt | Hge].
    - rewrite Z.shiftl_spec_low by lia. apply andb_false_r.
    - rewrite (testbit_small a n) by (change (2 ^ 8) with 256; lia).
      reflexivity. }
  rewrite <- Z.lxor_lor by exact Hdisj.
  rewrite <- Z.add_nocarry_lxor by exact Hdisj.
  rewrite Z.shiftl_mul_pow2 by lia. change (2 ^ 8) with 256. lia.
Qed.

(** What the code reads with [int16(binary.LittleEndian.Uint16(..))] is
    the little-endian signed 16-bit value of the two bytes. *)
Lemma int16_of_Uint16 (lo hi : byte) :
  int16 (Z.lor (byteZ lo) (Z.shiftl (byteZ hi) 8)) = sint16_le lo hi.
Proof.
  pose proof (byteZ_range lo). pose proof (byteZ_range hi).
  rewrite lor_shiftl_8 by assumption.
  unfold int16, sint16_le.
  rewrite Z.mod_small by lia. reflexivity.
Qed.

Lemma sint16_le_range (lo hi : byte) : -32768 <= sint16_le lo hi < 32768.
Proof.
  pose proof (byteZ_range lo). pose proof (byteZ_range hi).
  unfold sint16_le. cbv zeta.
  destruct (Z.ltb_spec (byteZ lo + 256 * byteZ hi) 32768); lia.
Qed.

(** [x & (1 << k) != 0] tests bit [k]. *)
Lemma land_bit_nonzero (x k : Z) :
  0 <= k -> negb (Z.land x (Z.shiftl 1 k) =? 0) = Z.testbit x k.
Proof.
  intros Hk.
  rewrite Z.shiftl_1_l.
  destruct (Z.testbit x k) eqn:Hbit.
  - assert (Z.land x (2 ^ k) = 2 ^ k) as ->.
    { apply Z.bits_inj'. intros n Hn.
      rewrite Z.land_spec, Z.pow2_bits_eqb by exact Hk.
      destruct (Z.eqb_spec k n) as [<- | _].
      - rewrite Hbit. reflexivity.
      - apply andb_false_r. }
    pose proof (Z.pow_pos_nonneg 2 k ltac:(lia) Hk).
    destruct (Z.eqb_spec (2 ^ k) 0); [lia | reflexivity].
  - assert (Z.land x (2 ^ k) = 0) as ->.
    { apply Z.bits_inj'. intros n Hn.
      rewrite Z.land_spec, Z.bits_0, Z.pow2_bits_eqb by exact Hk.
      destruct (Z.eqb_spec k n) as [<- | _].
      - rewrite Hbit. reflexivity.
      - apply andb_false_r. }
    reflexivity.
Qed.

End Arithmetic.

(** ** The flag bits of the heart-rate handler *)

Section HeartRateFlags.

Lemma is16Bit_testbit (flag : Z) : is16Bit flag = Z.testbit flag 0.
Proof. unfold is16Bit, HeartRateFlagSize. apply land_bit_nonzero. lia. Qed.

Lemma contactStatus_testbit (flag n : Z) :
  0 <= n ->
  Z.testbit (contactStatus flag) n
  = Z.testbit flag (n + 1) && ((n =? 0) || (n =? 1)).
Proof.
  intros Hn. unfold contactStatus, HeartRateFlagContactStatus.
  rewrite Z.shiftr_spec, Z.land_spec by exact Hn.
  f_equal.
  change (Z.lor (Z.shiftl 1 1) (Z.shiftl 1 2)) with (Z.lor (2 ^ 1) (2 ^ 2)).
  rewrite Z.lor_spec, !Z.pow2_bits_eqb by lia.
  destruct (Z.eqb_spec n 0), (Z.eqb_spec n 1),
    (Z.eqb_spec 1 (n + 1)), (Z.eqb_spec 2 (n + 1)); simpl; lia || reflexivity.
Qed.

(** Sensor contact is supported when bit 2 of the flags is set. *)
Lemma contactSupported_testbit (flag : Z) :
  contactSupported flag = Z.testbit flag 2.
Proof.
  unfold contactSupported.
  change 2 with (Z.shiftl 1 1) at 1.
  rewrite land_bit_nonzero, contactStatus_testbit by lia.
  simpl. apply andb_true_r.
Qed.

(** Sensor contact is detected when bit 1 of the flags is set. *)
Lemma contactFound_testbit (flag : Z) :
  contactFound flag = Z.testbit flag 1.
Proof.
  unfold contactFound.
  change 1 with (Z.shiftl 1 0) at 1.
  rewrite land_bit_nonzero, contactStatus_testbit by lia.
  simpl. apply andb_true_r.
Qed.

End HeartRateFlags.

(** ** The monad and the fan-out *)

Section FanOut.

Lemma forRange_perform {A} (f : A -> Event) (xs : list A) (w : World) :
  forRange xs (fun x => perform (f x)) w = Returned (tt, w ++ (f <$> xs)).
Proof.
  revert w. induction xs as [| x xs IH]; intros w; simpl.
  - unfold ret. rewrite app_nil_r. reflexivity.
  - unfold bind, perform at 1. rewrite IH, <- app_assoc. reflexivity.
Qed.

Lemma emit_spec (src : MetricSource) (m : DeviceMetric) (w : World) :
  emit src m w = Returned (tt, w ++ fanout src m).
Proof. apply forRange_perform. Qed.

Lemma deliveries_app (w1 w2 : World) :
  deliveries (w1 ++ w2) = deliveries w1 ++ deliveries w2.
Proof. apply omap_app. Qed.

Lemma deliveries_fanout (src : MetricSource) (m : DeviceMetric) :
  deliveries (fanout src m) = (fun sink => (sink, m)) <$> sinks src.
Proof.
  unfold fanout, deliveries.
  induction (sinks src) as [| c cs IH]; csimpl; [reflexivity |].
  f_equal. exact IH.
Qed.

End FanOut.

(** ** The decoders, case by case *)

Section Decoders.

Variable src : MetricSource.
Variable w : World.

(** The heart-rate handler on a payload of two bytes or more. *)
Lemma handleHeartRateMeasurement_eq (flag b1 : byte) (rest : list byte) :
  handleHeartRateMeasurement src (flag :: b1 :: rest) w =
    if contactSupported (byteZ flag) && negb (contactFound (byteZ flag))
    then Returned (tt, w)
    else if is16Bit (byteZ flag) then
           match rest with
           | b2 :: _ =>
               Returned (tt, w ++ fanout src (heartRate (sint16_le b1 b2)))
           | [] => Panicked
           end
         else Returned (tt, w ++ fanout src (heartRate (byteZ b1))).
Proof.
  unfold handleHeartRateMeasurement. simpl.
  unfold bind at 1. simpl.
  destruct (contactSupported (byteZ flag) && negb (contactFound (byteZ flag)));
    [reflexivity |].
  unfold bind at 1. simpl. unfold bind at 1.
  destruct (is16Bit (byteZ flag)).
  - destruct rest as [| b2 rest']; simpl; [reflexivity |].
    unfold bind, ret. simpl.
    rewrite int16_of_Uint16. apply emit_spec.
  - unfold ret. apply emit_spec.
Qed.

Lemma handleHeartRateMeasurement_short (buf : list byte) :
  (length buf < 2)%nat ->
  handleHeartRateMeasurement src buf w = Returned (tt, w).
Proof.
  intros Hlen. unfold handleHeartRateMeasurement.
  destruct (Nat.ltb_spec (length buf) 2); [reflexivity | lia].
Qed.

Lemma Uint16_flags (b0 b1 : byte) :
  Z.lor (byteZ b0) (Z.shiftl (byteZ b1) 8) = uint16_le b0 b1.
Proof. apply lor_shiftl_8, byteZ_range. Qed.

(** The cycling-power handler on a payload of four bytes or more. *)
Lemma handleCyclingPowerMeasurement_eq (b0 b1 b2 b3 : byte) (rest : list byte) :
  handleCyclingPowerMeasurement src (b0 :: b1 :: b2 :: b3 :: rest) w =
    if sint16_le b2 b3 =? 0 then Returned (None, w)
    else Returned (Some (trailingOffset (uint16_le b0 b1)),
                   w ++ fanout src (cyclingPower (sint16_le b2 b3))).
Proof.
  unfold handleCyclingPowerMeasurement. simpl.
  unfold bind, ret. simpl.
  rewrite int16_of_Uint16, Uint16_flags.
  destruct (sint16_le b2 b3 =? 0); [reflexivity |].
  rewrite emit_spec. do 3 f_equal.
  unfold CyclingPowerFlagHasPedalPowerBalance,
    CyclingPowerFlagHasAccumulatedTorque,
    CyclingPowerFlagHasWheelRevolution,
    CyclingPowerFlagHasCrankRevolution, trailingOffset.
  rewrite !land_bit_nonzero by lia.
  destruct (Z.testbit _ 0), (Z.testbit _ 2), (Z.testbit _ 4), (Z.testbit _ 5);
    reflexivity.
Qed.

(** Two or three bytes get past the length test and fail in the read of
    the power field. *)
Lemma handleCyclingPowerMeasurement_2_or_3 (b0 b1 : byte) (rest : list byte) :
  (length rest < 2)%nat ->
  handleCyclingPowerMeasurement src (b0 :: b1 :: rest) w = Panicked.
Proof.
  intros Hlen. destruct rest as [| b2 [| b3 rest']]; simpl in Hlen; try lia;
    reflexivity.
Qed.

Lemma handleCyclingPowerMeasurement_short (buf : list byte) :
  (length buf < 2)%nat ->
  handleCyclingPowerMeasurement src buf w = Returned (None, w).
Proof.
  intros Hlen. unfold handleCyclingPowerMeasurement.
  destruct (Nat.ltb_spec (length buf) 2); [reflexivity | lia].
Qed.

End Decoders.

(** ** Registration of sinks *)

Section Registration.

Lemma subscriptions_app (w1 w2 : World) :
  subscriptions (w1 ++ w2) = (subscriptions w1 + subscriptions w2)%nat.
Proof.
  unfold subscriptions. rewrite List.filter_app. apply length_app.
Qed.

(** Choosing the handler sends nothing and subscribes to nothing. *)
Lemma notificationHandler_quiet (src : MetricSource) (w : World) :
  exists h log,
    notificationHandler src w = Returned (h, w ++ log)
    /\ deliveries log = [] /\ subscriptions log = 0%nat.
Proof.
  unfold notificationHandler.
  destruct (decide (ch src = CharacteristicUUIDCyclingPowerMeasurement)).
  { exists (Some HandleCyclingPowerMeasurement), [].
    unfold ret. rewrite app_nil_r. auto. }
  destruct (decide (ch src = CharacteristicUUIDHeartRateMeasurement)).
  { exists (Some HandleHeartRateMeasurement), [].
    unfold ret. rewrite app_nil_r. auto. }
  exists None, [EvBugMissingHandler (ch src)]. auto.
Qed.

(** The first sink of a source installs the subscription. *)
Lemma AddSink_first (src : MetricSource) (sink : Chan) (w : World) :
  sinks src = [] ->
  exists w',
    AddSink src sink w
    = Returned ({| sinks := [sink]; svc := svc src; ch := ch src |}, w')
    /\ subscriptions w' = S (subscriptions w)
    /\ deliveries w' = deliveries w.
Proof.
  intros Hnil. unfold AddSink. rewrite Hnil. simpl.
  destruct (notificationHandler_quiet
              {| sinks := [sink]; svc := svc src; ch := ch src |} w)
    as (h & log & Hh & Hdel & Hsub).
  exists ((w ++ log) ++ [EvEnableNotifications (ch src) h]).
  unfold bind at 1. rewrite Hh. simpl. split; [reflexivity |].
  rewrite !subscriptions_app, !deliveries_app, Hdel, Hsub.
  change (subscriptions [EvEnableNotifications (ch src) h]) with 1%nat.
  change (deliveries [EvEnableNotifications (ch src) h]) with (@nil (Chan * DeviceMetric)).
  rewrite !app_nil_r. split; [lia | reflexivity].
Qed.

(** Any further sink is appended and nothing else happens. *)
Lemma AddSink_later (src : MetricSource) (sink : Chan) (w : World) :
  sinks src <> [] ->
  AddSink src sink w
  = Returned ({| sinks := sinks src ++ [sink]; svc := svc src; ch := ch src |},
              w).
Proof.
  intros Hne. unfold AddSink.
  destruct (sinks src) as [| c cs]; [contradiction |]. simpl.
  rewrite length_app, Nat.add_1_r. reflexivity.
Qed.

Lemma addSinks_later (new : list Chan) :
  forall (src : MetricSource) (w : World),
    sinks src <> [] ->
    addSinks src new w
    = Returned ({| sinks := sinks src ++ new; svc := svc src; ch := ch src |},
                w).
Proof.
  induction new as [| sink new IH]; intros src w Hne; simpl.
  - rewrite app_nil_r. destruct src. reflexivity.
  - unfold bind. rewrite AddSink_later by exact Hne.
    rewrite IH; simpl.
    + rewrite <- app_assoc. reflexivity.
    + destruct (sinks src); discriminate.
Qed.

(** Registration never sends a metric. *)
Lemma AddSink_no_delivery (src : MetricSource) (sink : Chan) (w : World) :
  exists src' w',
    AddSink src sink w = Returned (src', w')
    /\ sinks src' = sinks src ++ [sink]
    /\ deliveries w' = deliveries w.
Proof.
  destruct (sinks src) as [| c cs] eqn:Hs.
  - destruct (AddSink_first src sink w Hs) as (w' & Heq & _ & Hdel).
    eauto.
  - eexists _, w. rewrite AddSink_later by (rewrite Hs; discriminate).
    rewrite Hs. auto.
Qed.

End Registration.

(** ** The scan callback *)

Section ScanCallback.

Lemma matchedServiceNames_none (result : ScanResult) :
  (forall s, s ∈ KnownServiceUUIDs -> HasServiceUUID result s = false) ->
  matchedServiceNames result = [].
Proof.
  intros Hnone. unfold matchedServiceNames, KnownServiceUUIDs. simpl.
  rewrite !Hnone; [reflexivity | unfold KnownServiceUUIDs; set_solver ..].
Qed.

(** One callback: the report list grows by at most one report, which is
    for the address of the result and only if that address is new. *)
Lemma onScanResult_stdout (st : ScanState) (result : ScanResult) :
  exists new,
    stdout (onScanResult st result) = stdout st ++ new
    /\ (length new <= 1)%nat
    /\ (forall rep, rep ∈ new ->
          reportAddress rep = Address result
          /\ addrsChecked st !! Address result = None
          /\ matchedServiceNames result <> []).
Proof.
  unfold onScanResult.
  destruct (addrsChecked st !! Address result) eqn:Hseen.
  { exists []. rewrite app_nil_r. simpl.
    split; [reflexivity | split; [lia |]].
    intros rep Hrep. apply elem_of_nil in Hrep. contradiction. }
  destruct (matchedServiceNames result) as [| n ns] eqn:Hnames; simpl.
  { exists []. rewrite app_nil_r. simpl.
    split; [reflexivity | split; [lia |]].
    intros rep Hrep. apply elem_of_nil in Hrep. contradiction. }
  eexists. split; [reflexivity | split; [simpl; lia |]].
  intros rep Hrep. apply list_elem_of_singleton in Hrep. subst rep.
  simpl. auto.
Qed.

Lemma onScanResult_checked (st : ScanState) (result : ScanResult) (a : string) :
  is_Some (addrsChecked (onScanResult st result) !! a)
  <-> a = Address result \/ is_Some (addrsChecked st !! a).
Proof.
  unfold onScanResult.
  destruct (addrsChecked st !! Address result) eqn:Hseen.
  { split; [auto |]. intros [-> | H]; [rewrite Hseen; eauto | exact H]. }
  assert (Hins : is_Some (<[Address result:=true]> (addrsChecked st) !! a)
                 <-> a = Address result \/ is_Some (addrsChecked st !! a)).
  { rewrite lookup_insert_is_Some. split.
    - intros [<- | [_ H]]; auto.
    - intros [-> | H]; [auto |].
      destruct (decide (Address result = a)); auto. }
  destruct (length (matchedServiceNames result) =? 0)%nat; exact Hins.
Qed.

Lemma onScanResult_inv (results : list ScanResult) (st : ScanState)
      (result : ScanResult) :
  scan_inv results st -> scan_inv (results ++ [result]) (onScanResult st result).
Proof.
  intros (Hrep & Hnodup & Hdom).
  destruct (onScanResult_stdout st result) as (new & Hout & Hlen & Hnew).
  split; [| split].
  - intros a. rewrite Hout, fmap_app, elem_of_app, onScanResult_checked.
    intros [Hold | Hin]; [auto |].
    apply list_elem_of_fmap in Hin as (rep & -> & Hin).
    left. apply (Hnew rep Hin).
  - rewrite Hout, fmap_app.
    destruct new as [| rep [| rep' new']]; simpl in Hlen; [| | lia].
    + simpl. rewrite app_nil_r. exact Hnodup.
    + destruct (Hnew rep) as (Haddr & Hfresh & _);
        [apply list_elem_of_singleton; reflexivity |].
      apply NoDup_app. split; [exact Hnodup | split].
      * intros a Ha Hin. simpl in Hin.
        apply list_elem_of_singleton in Hin. subst a.
        apply Hrep in Ha. rewrite Haddr, Hfresh in Ha.
        destruct Ha; discriminate.
      * apply NoDup_singleton.
  - intros a. rewrite onScanResult_checked, fmap_app, elem_of_app.
    intros [-> | H]; [right | left; auto].
    simpl. apply list_elem_of_singleton. reflexivity.
Qed.

Lemma Scan_snoc (results : list ScanResult) (result : ScanResult) :
  Scan (results ++ [result]) = onScanResult (Scan results) result.
Proof. unfold Scan. rewrite foldl_app. reflexivity. Qed.

Lemma Scan_inv (results : list ScanResult) : scan_inv results (Scan results).
Proof.
  induction results as [| result results IH] using rev_ind.
  - repeat split.
    + intros a Ha. cbn in Ha. apply elem_of_nil in Ha. contradiction.
    + constructor.
    + simpl. intros a [v Hv]. rewrite lookup_empty in Hv. discriminate.
  - rewrite Scan_snoc. apply onScanResult_inv, IH.
Qed.

(** Once an address is in [addrsChecked], nothing is reported for it. *)
Lemma seen_never_reported (a : string) (results : list ScanResult) :
  forall st : ScanState,
    is_Some (addrsChecked st !! a) ->
    exists new,
      stdout (foldl onScanResult st results) = stdout st ++ new
      /\ forall rep, rep ∈ new -> reportAddress rep <> a.
Proof.
  induction results as [| result results IH]; intros st Hseen; simpl.
  { exists []. rewrite app_nil_r. split; [reflexivity |].
    intros rep Hrep. apply elem_of_nil in Hrep. contradiction. }
  destruct (onScanResult_stdout st result) as (new1 & Hout1 & _ & Hnew1).
  destruct (IH (onScanResult st result)) as (new2 & Hout2 & Hnew2).
  { apply onScanResult_checked. auto. }
  exists (new1 ++ new2). rewrite Hout2, Hout1, app_assoc.
  split; [reflexivity |].
  intros rep [Hin | Hin]%elem_of_app; [| auto].
  destruct (Hnew1 rep Hin) as (Haddr & Hfresh & _).
  intros Heq. rewrite <- Heq, Haddr, Hfresh in Hseen.
  destruct Hseen; discriminate.
Qed.

End ScanCallback.

(** * The claims *)

(** ** Heart-rate decoding *)

(** C1, counterexample.  In the flags byte 0x06 bits 1 and 2 are both set:
    the contact status reads "supported" and "detected", and the payload
    [0x06, 0x50] is decoded and sent on as HeartRate(80); it is not dropped. *)
Lemma heart_rate_0x06_contact_detected :
  contactSupported (byteZ x06) = true
  /\ contactFound (byteZ x06) = true
  /\ handleHeartRateMeasurement probe [x06; x50] []
     = Returned (tt, [EvSend 7%nat (heartRate 80)])
  /\ handleHeartRateMeasurement probe [x06; x50] [] <> Returned (tt, []).
Proof. repeat split; try reflexivity. discriminate. Qed.

(** C1, as amended.  The status "supported, not detected" is bit 2 set and
    bit 1 clear, that is the flags byte 0x04: the payload [0x04, 0x50] emits
    no metric, for every source and whatever happened before.  The payload
    [0x06, 0x50] has status "supported, detected" and emits HeartRate(80). *)
Theorem heart_rate_contact_not_detected_dropped
        (src : MetricSource) (w : World) :
  (contactSupported (byteZ x04) = true
   /\ contactFound (byteZ x04) = false
   /\ handleHeartRateMeasurement src [x04; x50] w = Returned (tt, w))
  /\ (contactSupported (byteZ x06) = true
      /\ contactFound (byteZ x06) = true
      /\ handleHeartRateMeasurement src [x06; x50] w
         = Returned (tt, w ++ fanout src (heartRate 80))).
Proof.
  rewrite !handleHeartRateMeasurement_eq. repeat split.
Qed.

(** C2, counterexample.  The flags byte 0x07 also has bit 0 set, which
    selects the 16-bit value; the two-byte payload [0x07, 0x50] has no
    byte 2, the read of the value fails and no HeartRate(80) is emitted. *)
Lemma heart_rate_0x07_two_bytes_no_metric :
  is16Bit (byteZ x07) = true
  /\ handleHeartRateMeasurement probe [x07; x50] [] = Panicked
  /\ handleHeartRateMeasurement probe [x07; x50] []
     <> Returned (tt, [EvSend 7%nat (heartRate 80)]).
Proof. repeat split; try reflexivity. discriminate. Qed.

(** C2, as amended.  With the flags byte 0x07 the contact status is
    "supported" and "detected" and the value is the 16-bit one: the payload
    [0x07, 0x50, 0x00] emits HeartRate with value 0x0050 = 80. *)
Theorem heart_rate_0x07_sixteen_bit_value (src : MetricSource) (w : World) :
  contactSupported (byteZ x07) = true
  /\ contactFound (byteZ x07) = true
  /\ is16Bit (byteZ x07) = true
  /\ handleHeartRateMeasurement src [x07; x50; x00] w
     = Returned (tt, w ++ fanout src (heartRate 80)).
Proof.
  rewrite handleHeartRateMeasurement_eq. repeat split.
Qed.

(** C5.  On a payload of two bytes or more the handler drops the reading
    when contact is supported and not detected; otherwise it emits byte 1
    as an unsigned 8-bit value when bit 0 of the flags is clear and bytes
    1-2 as a little-endian signed 16-bit value when bit 0 is set and byte 2
    exists.  When bit 0 is set and the payload has exactly two bytes, which
    passes the length test [len(buf) < 2], the read of bytes 1-2 fails: the
    payload [0x01, 0x48] panics.  [0x00, 0x48] and [0x01, 0x48, 0x00] both
    emit HeartRate(72). *)
Theorem heart_rate_value_by_size_flag
        (src : MetricSource) (w : World) (flag b1 : byte) (rest : list byte) :
  handleHeartRateMeasurement src (flag :: b1 :: rest) w =
    (if Z.testbit (byteZ flag) 2 && negb (Z.testbit (byteZ flag) 1)
     then Returned (tt, w)
     else if Z.testbit (byteZ flag) 0 then
            match rest with
            | b2 :: _ =>
                Returned (tt, w ++ fanout src (heartRate (sint16_le b1 b2)))
            | [] => Panicked
            end
          else Returned (tt, w ++ fanout src (heartRate (byteZ b1))))
  /\ handleHeartRateMeasurement src [x01; x48] w = Panicked
  /\ handleHeartRateMeasurement src [x00; x48] w
     = Returned (tt, w ++ fanout src (heartRate 72))
  /\ handleHeartRateMeasurement src [x01; x48; x00] w
     = Returned (tt, w ++ fanout src (heartRate 72)).
Proof.
  rewrite !handleHeartRateMeasurement_eq.
  rewrite contactSupported_testbit, contactFound_testbit, is16Bit_testbit.
  repeat split.
Qed.

(** ** Cycling-power decoding *)

(** C3.  The heart-rate handler drops every payload of fewer than two
    bytes, and so does the cycling-power handler.  A cycling-power payload
    of two or three bytes, still shorter than flags plus power, passes the
    length test [len(buf) < 2] and then panics in the read of the power
    field at [buf[2:]]. *)
Theorem cycling_power_short_payload
        (src : MetricSource) (w : World) (b0 b1 b2 : byte) :
  handleHeartRateMeasurement src [] w = Returned (tt, w)
  /\ handleHeartRateMeasurement src [b0] w = Returned (tt, w)
  /\ handleCyclingPowerMeasurement src [] w = Returned (None, w)
  /\ handleCyclingPowerMeasurement src [b0] w = Returned (None, w)
  /\ handleCyclingPowerMeasurement src [b0; b1] w = Panicked
  /\ handleCyclingPowerMeasurement src [b0; b1; b2] w = Panicked
  /\ handleCyclingPowerMeasurement src [x00; x00] w = Panicked.
Proof. repeat split. Qed.

(** C4.  On every cycling-power payload of four bytes or more the handler
    emits nothing when the little-endian signed 16-bit value of bytes 2-3
    is zero, and otherwise performs exactly one [emit], of a CyclingPower
    metric with that value.  [0,0,0,0] emits nothing and [0,0,0x64,0] emits
    CyclingPower(100). *)
Theorem cycling_power_emits_nonzero_power
        (src : MetricSource) (w : World) (b0 b1 b2 b3 : byte)
        (rest : list byte) :
  handleCyclingPowerMeasurement src (b0 :: b1 :: b2 :: b3 :: rest) w =
    (if sint16_le b2 b3 =? 0 then Returned (None, w)
     else Returned (Some (trailingOffset (uint16_le b0 b1)),
                    w ++ fanout src (cyclingPower (sint16_le b2 b3))))
  /\ runHandler HandleCyclingPowerMeasurement src
       (b0 :: b1 :: b2 :: b3 :: rest) w =
     (if sint16_le b2 b3 =? 0 then Returned (tt, w)
      else Returned (tt, w ++ fanout src (cyclingPower (sint16_le b2 b3))))
  /\ runHandler HandleCyclingPowerMeasurement src [x00; x00; x00; x00] w
     = Returned (tt, w)
  /\ runHandler HandleCyclingPowerMeasurement src [x00; x00; x64; x00] w
     = Returned (tt, w ++ fanout src (cyclingPower 100)).
Proof.
  unfold runHandler, bind.
  rewrite !handleCyclingPowerMeasurement_eq.
  repeat split. destruct (sint16_le b2 b3 =? 0); reflexivity.
Qed.

(** C6, counterexample.  The payload [0x11, 0x00, 0x00, 0x00] has flag
    bits 0 and 4 set and no other, and a power of zero: the handler returns
    before the walk over the optional fields and computes no offset. *)
Lemma cycling_power_zero_power_no_offset :
  Z.testbit (uint16_le x11 x00) 0 = true
  /\ Z.testbit (uint16_le x11 x00) 4 = true
  /\ Z.testbit (uint16_le x11 x00) 2 = false
  /\ Z.testbit (uint16_le x11 x00) 5 = false
  /\ handleCyclingPowerMeasurement probe [x11; x00; x00; x00] []
     = Returned (None, [])
  /\ handleCyclingPowerMeasurement probe [x11; x00; x00; x00] []
     <> Returned (Some 11, []).
Proof. repeat split; try reflexivity. discriminate. Qed.

(** C6, as amended.  On a cycling-power payload of four bytes or more whose
    power is not zero, the offset the handler computes is 4, plus 1 if flag
    bit 0 (pedal power balance) is set, plus 2 if bit 2 (accumulated torque)
    is set, plus 6 if bit 4 (wheel revolution) is set, plus 4 if bit 5
    (crank revolution) is set; with bits 0 and 4 set and bits 2 and 5 clear
    it is 4 + 1 + 6 = 11, whatever the other bytes of the payload are. *)
Theorem cycling_power_trailing_offset
        (src : MetricSource) (w : World) (b0 b1 b2 b3 : byte)
        (rest : list byte) :
  let flags := uint16_le b0 b1 in
  sint16_le b2 b3 <> 0 ->
  handleCyclingPowerMeasurement src (b0 :: b1 :: b2 :: b3 :: rest) w
  = Returned (Some (4 + (if Z.testbit flags 0 then 1 else 0)
                      + (if Z.testbit flags 2 then 2 else 0)
                      + (if Z.testbit flags 4 then 6 else 0)
                      + (if Z.testbit flags 5 then 4 else 0)),
              w ++ fanout src (cyclingPower (sint16_le b2 b3)))
  /\ (Z.testbit flags 0 = true -> Z.testbit flags 4 = true ->
      Z.testbit flags 2 = false -> Z.testbit flags 5 = false ->
      handleCyclingPowerMeasurement src (b0 :: b1 :: b2 :: b3 :: rest) w
      = Returned (Some (4 + 1 + 6),
                  w ++ fanout src (cyclingPower (sint16_le b2 b3)))).
Proof.
  intros flags Hpower.
  rewrite handleCyclingPowerMeasurement_eq.
  destruct (Z.eqb_spec (sint16_le b2 b3) 0) as [Hz | _]; [contradiction |].
  split; [reflexivity |].
  intros H0 H4 H2 H5. unfold trailingOffset. fold flags.
  rewrite H0, H4, H2, H5. reflexivity.
Qed.

(** The offset theorem at the payload [0x11, 0x00, 0x64, 0x00, 0xff]:
    100 watts, flag bits 0 and 4. *)
Lemma cycling_power_trailing_offset_witness :
  sint16_le x64 x00 <> 0
  /\ Z.testbit (uint16_le x11 x00) 0 = true
  /\ Z.testbit (uint16_le x11 x00) 4 = true
  /\ Z.testbit (uint16_le x11 x00) 2 = false
  /\ Z.testbit (uint16_le x11 x00) 5 = false
  /\ handleCyclingPowerMeasurement probe [x11; x00; x64; x00; xff] []
     = Returned (Some 11, [EvSend 7%nat (cyclingPower 100)]).
Proof.
  assert (Hpower : sint16_le x64 x00 <> 0) by (vm_compute; discriminate).
  split; [exact Hpower |]. do 4 (split; [reflexivity |]).
  destruct (cycling_power_trailing_offset probe [] x11 x00 x64 x00 [xff] Hpower)
    as [_ H11].
  apply H11; reflexivity.
Defined.

(** ** Fan-out and subscription *)

(** C7.  [emit src m] returns after one send of [m] on each sink of
    [src.sinks], in the order of registration, and performs nothing else:
    the deliveries it adds are exactly [(sink, m)] for the registered
    sinks, as many as there are sinks.  Registering a sink afterwards adds
    no delivery, so a sink added after the emission does not get [m]. *)
Theorem emit_delivers_to_registered_sinks
        (src : MetricSource) (m : DeviceMetric) (w : World) :
  exists w',
    emit src m w = Returned (tt, w')
    /\ w' = w ++ ((fun sink => EvSend sink m) <$> sinks src)
    /\ deliveries w' = deliveries w ++ ((fun sink => (sink, m)) <$> sinks src)
    /\ length (deliveries w') = (length (deliveries w) + length (sinks src))%nat
    /\ (forall late : Chan,
          exists src' w'',
            AddSink src late w' = Returned (src', w'')
            /\ sinks src' = sinks src ++ [late]
            /\ deliveries w'' = deliveries w').
Proof.
  exists (w ++ fanout src m).
  assert (Hdel : deliveries (w ++ fanout src m)
                 = deliveries w ++ ((fun sink => (sink, m)) <$> sinks src)).
  { rewrite deliveries_app, deliveries_fanout. reflexivity. }
  split; [apply emit_spec |].
  split; [reflexivity |].
  split; [exact Hdel |].
  split.
  - rewrite Hdel, length_app, length_fmap. reflexivity.
  - intros late. apply AddSink_no_delivery.
Qed.

(** C8.  A source made by [NewMetricSource] has no sink, and without a call
    to [AddSink] nothing happens.  The first [AddSink] calls
    [EnableNotifications] exactly once, and every later [AddSink] only
    appends its sink and leaves the world as it is: after any sequence of
    calls that is not empty the subscription has been installed exactly
    once. *)
Theorem subscription_installed_once
        (svc0 ch0 : UUID) (first : Chan) (later : list Chan) (w : World) :
  sinks (NewMetricSource svc0 ch0) = []
  /\ addSinks (NewMetricSource svc0 ch0) [] w
     = Returned (NewMetricSource svc0 ch0, w)
  /\ exists src1 w1 srcN,
       AddSink (NewMetricSource svc0 ch0) first w = Returned (src1, w1)
       /\ subscriptions w1 = S (subscriptions w)
       /\ addSinks src1 later w1 = Returned (srcN, w1)
       /\ addSinks (NewMetricSource svc0 ch0) (first :: later) w
          = Returned (srcN, w1)
       /\ sinks srcN = first :: later.
Proof.
  split; [reflexivity |].
  split; [reflexivity |].
  destruct (AddSink_first (NewMetricSource svc0 ch0) first w eq_refl)
    as (w1 & Hfirst & Hsub & _).
  eexists _, w1, _.
  split; [exact Hfirst |].
  split; [exact Hsub |].
  assert (Hlater := addSinks_later later
            {| sinks := [first]; svc := svc (NewMetricSource svc0 ch0);
               ch := ch (NewMetricSource svc0 ch0) |} w1 ltac:(discriminate)).
  split; [exact Hlater |].
  split; [| reflexivity].
  simpl. unfold bind. rewrite Hfirst. exact Hlater.
Qed.

(** ** Scan mode *)

(** C9.  Over any sequence of scan results no address is reported twice;
    and cutting the sequence anywhere, the reports made after the cut are
    for addresses that were not reported before it. *)
Theorem scan_reports_each_address_once (pre post : list ScanResult) :
  NoDup (reportAddress <$> stdout (Scan (pre ++ post)))
  /\ exists later,
       stdout (Scan (pre ++ post)) = stdout (Scan pre) ++ later
       /\ forall rep, rep ∈ later ->
                      reportAddress rep ∉ reportAddress <$> stdout (Scan pre).
Proof.
  destruct (Scan_inv (pre ++ post)) as (_ & Hnodup & _).
  split; [exact Hnodup |].
  assert (Hmono : forall (results : list ScanResult) (st : ScanState),
             exists later, stdout (foldl onScanResult st results)
                           = stdout st ++ later).
  { induction results as [| r results IH]; intros st; simpl.
    - exists []. rewrite app_nil_r. reflexivity.
    - destruct (IH (onScanResult st r)) as (l2 & ->).
      destruct (onScanResult_stdout st r) as (l1 & -> & _).
      exists (l1 ++ l2). rewrite app_assoc. reflexivity. }
  destruct (Hmono post (Scan pre)) as (later & Hlater).
  unfold Scan in Hlater |- *. rewrite foldl_app.
  exists later. split; [exact Hlater |].
  intros rep Hrep Hbefore.
  unfold Scan in Hnodup. rewrite foldl_app, Hlater, fmap_app in Hnodup.
  apply NoDup_app in Hnodup as (_ & Hdisj & _).
  apply (Hdisj _ Hbefore). apply list_elem_of_fmap. eauto.
Qed.

(** C10.  The callback puts the address of a result into [addrsChecked]
    before it looks at the services.  So when the first result of an
    address advertises no known service, the address is marked all the same
    and no result of that address is reported later, whatever services the
    later results advertise. *)
Theorem scan_first_result_without_service_silences_address
        (pre post : list ScanResult) (first : ScanResult) :
  Address first ∉ Address <$> pre ->
  (forall s, s ∈ KnownServiceUUIDs -> HasServiceUUID first s = false) ->
  is_Some (addrsChecked (Scan (pre ++ [first])) !! Address first)
  /\ forall rep, rep ∈ stdout (Scan (pre ++ first :: post)) ->
                 reportAddress rep <> Address first.
Proof.
  intros Hfresh Hnone.
  assert (Hmark : is_Some (addrsChecked (Scan (pre ++ [first]))
                             !! Address first)).
  { rewrite Scan_snoc. apply onScanResult_checked. auto. }
  split; [exact Hmark |].
  destruct (Scan_inv pre) as (Hrep & _ & Hdom).
  destruct (seen_never_reported (Address first) post
              (Scan (pre ++ [first])) Hmark) as (new & Hout & Hnew).
  assert (Hsame : stdout (Scan (pre ++ [first])) = stdout (Scan pre)).
  { rewrite Scan_snoc.
    destruct (onScanResult_stdout (Scan pre) first) as (l & -> & _ & Hl).
    destruct l as [| rep l]; [apply app_nil_r |].
    destruct (Hl rep) as (_ & _ & Hnames); [left |].
    rewrite matchedServiceNames_none in Hnames by exact Hnone.
    contradiction. }
  intros rep Hin.
  replace (pre ++ first :: post) with ((pre ++ [first]) ++ post) in Hin
    by (rewrite <- app_assoc; reflexivity).
  unfold Scan in Hin, Hout. rewrite foldl_app in Hin.
  fold (Scan (pre ++ [first])) in Hin, Hout.
  rewrite Hout, Hsame in Hin.
  apply elem_of_app in Hin as [Hold | Hlate]; [| auto].
  intros Heq. apply Hfresh, Hdom, Hrep. rewrite <- Heq.
  apply list_elem_of_fmap. eauto.
Qed.

(** The same device seen twice, first advertising nothing, then the
    heart-rate service: nothing is reported for it. *)
Lemma scan_first_result_without_service_silences_address_witness :
  let quiet := {| Address := "C8:2E:47:10:5A:01"; LocalName := "strap";
                  ServiceUUIDs := []; RSSI := -60 |} in
  let loud := {| Address := "C8:2E:47:10:5A:01"; LocalName := "strap";
                 ServiceUUIDs := [ServiceUUIDHeartRate]; RSSI := -58 |} in
  matchedServiceNames loud = ["Heart Rate"%string]
  /\ forall rep, rep ∈ stdout (Scan ([] ++ quiet :: [loud])) ->
                 reportAddress rep <> Address quiet.
Proof.
  split; [reflexivity |].
  apply (scan_first_result_without_service_silences_address
           [] [ {| Address := "C8:2E:47:10:5A:01"; LocalName := "strap";
                   ServiceUUIDs := [ServiceUUIDHeartRate]; RSSI := -58 |} ]
           {| Address := "C8:2E:47:10:5A:01"; LocalName := "strap";
              ServiceUUIDs := []; RSSI := -60 |}).
  - apply not_elem_of_nil.
  - intros s _. unfold HasServiceUUID. apply bool_decide_eq_false.
    apply not_elem_of_nil.
Defined.

(** * Further properties of the program *)

(** ** What the decoders do on every payload *)

(** X1.  The heart-rate handler panics on exactly one kind of payload: two
    bytes long, bit 0 of the flags set (16-bit value), and not dropped by
    the contact test.  On every other payload it returns. *)
Theorem heart_rate_panics_iff
        (src : MetricSource) (w : World) (buf : list byte) :
  handleHeartRateMeasurement src buf w = Panicked
  <-> exists flag b1,
        buf = [flag; b1]
        /\ Z.testbit (byteZ flag) 0 = true
        /\ Z.testbit (byteZ flag) 2 && negb (Z.testbit (byteZ flag) 1) = false.
Proof.
  destruct buf as [| flag [| b1 rest]].
  - split; [discriminate | intros (f & b & Heq & _); discriminate].
  - split; [discriminate | intros (f & b & Heq & _); discriminate].
  - rewrite handleHeartRateMeasurement_eq.
    rewrite contactSupported_testbit, contactFound_testbit, is16Bit_testbit.
    split.
    + destruct (Z.testbit (byteZ flag) 2 && negb (Z.testbit (byteZ flag) 1))
        eqn:Hgate; [discriminate |].
      destruct (Z.testbit (byteZ flag) 0) eqn:Hsize; [| discriminate].
      destruct rest as [| b2 rest']; [| discriminate].
      intros _. exists flag, b1. auto.
    + intros (f & b & Heq & Hsize & Hgate).
      injection Heq as -> -> ->. rewrite Hgate, Hsize. reflexivity.
Qed.

(** X2.  The cycling-power handler panics exactly on the payloads of two
    or three bytes. *)
Theorem cycling_power_panics_iff
        (src : MetricSource) (w : World) (buf : list byte) :
  handleCyclingPowerMeasurement src buf w = Panicked
  <-> length buf = 2%nat \/ length buf = 3%nat.
Proof.
  destruct buf as [| b0 [| b1 [| b2 [| b3 rest]]]]; simpl length.
  - split; [discriminate | lia].
  - split; [discriminate | lia].
  - split; [auto | reflexivity].
  - split; [auto | reflexivity].
  - rewrite handleCyclingPowerMeasurement_eq.
    destruct (sint16_le b2 b3 =? 0); split; (discriminate || lia).
Qed.

(** X3.  One notification gives at most one heart-rate metric.  When the
    handler returns it has either done nothing or performed one [emit] of a
    HeartRate metric whose value is a signed 16-bit number, and an unsigned
    8-bit number when bit 0 of the flags is clear. *)
Theorem heart_rate_outcomes
        (src : MetricSource) (w : World) (buf : list byte) :
  handleHeartRateMeasurement src buf w = Panicked
  \/ handleHeartRateMeasurement src buf w = Returned (tt, w)
  \/ exists v,
       handleHeartRateMeasurement src buf w
       = Returned (tt, w ++ fanout src (heartRate v))
       /\ -32768 <= v < 32768
       /\ (forall flag, buf !! 0%nat = Some flag ->
                        Z.testbit (byteZ flag) 0 = false -> 0 <= v < 256).
Proof.
  destruct buf as [| flag [| b1 rest]]; [right; left; reflexivity .. |].
  rewrite handleHeartRateMeasurement_eq, is16Bit_testbit.
  destruct (contactSupported (byteZ flag) && negb (contactFound (byteZ flag)));
    [right; left; reflexivity |].
  destruct (Z.testbit (byteZ flag) 0) eqn:Hsize.
  - destruct rest as [| b2 rest']; [left; reflexivity |].
    right; right. exists (sint16_le b1 b2).
    split; [reflexivity | split; [apply sint16_le_range |]].
    intros f Hf. injection Hf as <-. congruence.
  - right; right. exists (byteZ b1).
    pose proof (byteZ_range b1).
    split; [reflexivity | split; [lia |]]. intros; assumption.
Qed.

(** X4.  One notification gives at most one cycling-power metric, and never
    one of zero watts.  When the handler returns it has either done nothing
    or performed one [emit] of a CyclingPower metric whose value is a signed
    16-bit number other than zero, and the offset it ends with lies between
    4 and 17. *)
Theorem cycling_power_outcomes
        (src : MetricSource) (w : World) (buf : list byte) :
  handleCyclingPowerMeasurement src buf w = Panicked
  \/ handleCyclingPowerMeasurement src buf w = Returned (None, w)
  \/ exists v offset,
       handleCyclingPowerMeasurement src buf w
       = Returned (Some offset, w ++ fanout src (cyclingPower v))
       /\ v <> 0 /\ -32768 <= v < 32768 /\ 4 <= offset <= 17.
Proof.
  destruct buf as [| b0 [| b1 [| b2 [| b3 rest]]]];
    [right; left; reflexivity | right; left; reflexivity
     | left; reflexivity | left; reflexivity |].
  rewrite handleCyclingPowerMeasurement_eq.
  destruct (Z.eqb_spec (sint16_le b2 b3) 0) as [Hz | Hnz];
    [right; left; reflexivity |].
  right; right. exists (sint16_le b2 b3), (trailingOffset (uint16_le b0 b1)).
  split; [reflexivity | split; [exact Hnz | split; [apply sint16_le_range |]]].
  unfold trailingOffset.
  destruct (Z.testbit _ 0), (Z.testbit _ 2), (Z.testbit _ 4), (Z.testbit _ 5);
    lia.
Qed.

(** X5.  The heart-rate handler looks at bits 0-2 of the flags and at the
    value bytes only: on payloads of three bytes or more, two payloads that
    agree on the low three flag bits and on bytes 1 and 2 have the same
    outcome, whatever the other flag bits (energy expended, RR interval,
    reserved) and the bytes that follow are. *)
Theorem heart_rate_ignores_optional_fields
        (src : MetricSource) (w : World)
        (flag flag' b1 b2 : byte) (rest rest' : list byte) :
  Z.land (byteZ flag) 7 = Z.land (byteZ flag') 7 ->
  handleHeartRateMeasurement src (flag :: b1 :: b2 :: rest) w
  = handleHeartRateMeasurement src (flag' :: b1 :: b2 :: rest') w.
Proof.
  intros Hlow.
  assert (Hbit : forall k, 0 <= k < 3 ->
                           Z.testbit (byteZ flag) k = Z.testbit (byteZ flag') k).
  { intros k Hk.
    apply (f_equal (fun z => Z.testbit z k)) in Hlow.
    rewrite !Z.land_spec in Hlow.
    replace (Z.testbit 7 k) with true in Hlow.
    - rewrite !andb_true_r in Hlow. exact Hlow.
    - assert (k = 0 \/ k = 1 \/ k = 2) as [-> | [-> | ->]] by lia;
        reflexivity. }
  rewrite !handleHeartRateMeasurement_eq.
  rewrite !contactSupported_testbit, !contactFound_testbit, !is16Bit_testbit.
  rewrite (Hbit 0), (Hbit 1), (Hbit 2) by lia. reflexivity.
Qed.

(** At the payloads [0x00, 0x48, 0xaa] and [0xf8, 0x48, 0xaa, 0x01]. *)
Lemma heart_rate_ignores_optional_fields_witness :
  Z.land (byteZ x00) 7 = Z.land (byteZ xf8) 7
  /\ handleHeartRateMeasurement probe [x00; x48; xaa] []
     = handleHeartRateMeasurement probe [xf8; x48; xaa; x01] [].
Proof.
  split; [reflexivity |].
  apply (heart_rate_ignores_optional_fields probe [] x00 xf8 x48 xaa [] [x01]).
  reflexivity.
Defined.

(** X6.  What the cycling-power handler sends depends on bytes 2-3 only:
    neither the flags nor the optional fields after the power change the
    metric. *)
Theorem cycling_power_metric_ignores_flags
        (src : MetricSource) (w : World)
        (b0 b1 c0 c1 b2 b3 : byte) (rest rest' : list byte) :
  runHandler HandleCyclingPowerMeasurement src (b0 :: b1 :: b2 :: b3 :: rest) w
  = runHandler HandleCyclingPowerMeasurement src
      (c0 :: c1 :: b2 :: b3 :: rest') w.
Proof.
  unfold runHandler, bind. rewrite !handleCyclingPowerMeasurement_eq.
  destruct (sint16_le b2 b3 =? 0); reflexivity.
Qed.

(** ** Sinks, handlers and names *)

Lemma received_app (c : Chan) (w1 w2 : World) :
  received c (w1 ++ w2) = received c w1 ++ received c w2.
Proof. apply omap_app. Qed.

Lemma received_fanout (c : Chan) (src : MetricSource) (m : DeviceMetric) :
  received c (fanout src m)
  = replicate (count_occ Nat.eq_dec (sinks src) c) m.
Proof.
  unfold fanout, received.
  induction (sinks src) as [| sink rest IH]; [reflexivity |].
  csimpl. rewrite IH.
  destruct (decide (sink = c)) as [-> | Hne].
  - destruct (Nat.eq_dec c c); [reflexivity | contradiction].
  - destruct (Nat.eq_dec sink c); [contradiction | reflexivity].
Qed.

(** The first sink of a fresh source: what is added to the trace, by
    characteristic. *)
Lemma AddSink_first_cases (svc0 ch0 : UUID) (sink : Chan) (w : World) :
  exists log,
    AddSink (NewMetricSource svc0 ch0) sink w
    = Returned ({| sinks := [sink]; svc := svc0; ch := ch0 |}, w ++ log)
    /\ ((ch0 = CharacteristicUUIDCyclingPowerMeasurement
         /\ log = [EvEnableNotifications ch0
                     (Some HandleCyclingPowerMeasurement)])
        \/ (ch0 = CharacteristicUUIDHeartRateMeasurement
            /\ log = [EvEnableNotifications ch0
                        (Some HandleHeartRateMeasurement)])
        \/ (ch0 <> CharacteristicUUIDCyclingPowerMeasurement
            /\ ch0 <> CharacteristicUUIDHeartRateMeasurement
            /\ log = [EvBugMissingHandler ch0;
                      EvEnableNotifications ch0 None])).
Proof.
  unfold AddSink, notificationHandler. simpl.
  destruct (decide (ch0 = CharacteristicUUIDCyclingPowerMeasurement)) as [Hcp | Hcp].
  { eexists. split; [reflexivity | auto]. }
  destruct (decide (ch0 = CharacteristicUUIDHeartRateMeasurement)) as [Hhr | Hhr].
  { eexists. split; [reflexivity | auto]. }
  exists [EvBugMissingHandler ch0; EvEnableNotifications ch0 None].
  split; [| auto 6].
  unfold bind, perform, ret. rewrite <- app_assoc. reflexivity.
Qed.

(** X7.  A channel gets one copy of an emitted metric for each time it
    occurs in [src.sinks], and none if it is not registered: [AddSink] does
    not look for duplicates, so a channel registered twice on a source
    receives every metric of that source twice. *)
Theorem emit_copies_per_registration
        (src : MetricSource) (m : DeviceMetric) (w : World) (c : Chan) :
  (exists w',
     emit src m w = Returned (tt, w')
     /\ received c w'
        = received c w ++ replicate (count_occ Nat.eq_dec (sinks src) c) m)
  /\ (forall svc0 ch0 : UUID,
        exists src2 w2 w3,
          addSinks (NewMetricSource svc0 ch0) [c; c] w = Returned (src2, w2)
          /\ emit src2 m w2 = Returned (tt, w3)
          /\ received c w3 = received c w ++ [m; m]).
Proof.
  split.
  - exists (w ++ fanout src m). split; [apply emit_spec |].
    rewrite received_app, received_fanout. reflexivity.
  - intros svc0 ch0.
    destruct (AddSink_first_cases svc0 ch0 c w) as (log & Hfirst & Hlog).
    assert (Hquiet : received c log = []).
    { destruct Hlog as [[_ ->] | [[_ ->] | (_ & _ & ->)]]; reflexivity. }
    eexists _, (w ++ log), _. split; [| split].
    + simpl. unfold bind at 1. rewrite Hfirst.
      unfold bind. rewrite AddSink_later by discriminate. reflexivity.
    + apply emit_spec.
    + rewrite !received_app, received_fanout, Hquiet, app_nil_r. simpl.
      destruct (Nat.eq_dec c c); [reflexivity | contradiction].
Qed.

(** X8.  The first sink of a fresh source subscribes with the handler of
    its characteristic: the cycling-power handler for Cycling Power
    Measurement, the heart-rate handler for Heart Rate Measurement.  For any
    other characteristic the BUG line is printed and [EnableNotifications]
    is called all the same, with a nil handler. *)
Theorem first_sink_installs_handler
        (svc0 ch0 : UUID) (sink : Chan) (w : World) :
  let src1 := {| sinks := [sink]; svc := svc0; ch := ch0 |} in
  (ch0 = CharacteristicUUIDCyclingPowerMeasurement ->
   AddSink (NewMetricSource svc0 ch0) sink w
   = Returned (src1, w ++ [EvEnableNotifications ch0
                             (Some HandleCyclingPowerMeasurement)]))
  /\ (ch0 = CharacteristicUUIDHeartRateMeasurement ->
      AddSink (NewMetricSource svc0 ch0) sink w
      = Returned (src1, w ++ [EvEnableNotifications ch0
                                (Some HandleHeartRateMeasurement)]))
  /\ (ch0 <> CharacteristicUUIDCyclingPowerMeasurement ->
      ch0 <> CharacteristicUUIDHeartRateMeasurement ->
      AddSink (NewMetricSource svc0 ch0) sink w
      = Returned (src1, w ++ [EvBugMissingHandler ch0;
                              EvEnableNotifications ch0 None])).
Proof.
  intros src1.
  destruct (AddSink_first_cases svc0 ch0 sink w) as (log & Hfirst & Hlog).
  rewrite Hfirst. subst src1.
  destruct Hlog as [[Hcp ->] | [[Hhr ->] | (Hcp & Hhr & ->)]].
  - split; [reflexivity |]. split; [| contradiction].
    intros Hhr. rewrite Hcp in Hhr. discriminate.
  - split; [| split; [reflexivity | contradiction]].
    intros Hcp. rewrite Hhr in Hcp. discriminate.
  - split; [contradiction |]. split; [contradiction | reflexivity].
Qed.

(** X9.  Subscribe, then notify.  After sinks have been added to a fresh
    source of the Heart Rate Measurement characteristic, the trace holds one
    subscription, with the heart-rate handler; and that handler, run on an
    8-bit payload, sends the decoded metric to all the sinks added, the
    later ones included, in the order in which they were added.  The same
    holds for Cycling Power Measurement and its handler. *)
Theorem subscribed_handler_reaches_all_sinks
        (svc0 : UUID) (first : Chan) (later : list Chan) (w : World) :
  (exists srcN,
     addSinks (NewMetricSource svc0 CharacteristicUUIDHeartRateMeasurement)
              (first :: later) w
     = Returned (srcN,
                 w ++ [EvEnableNotifications
                         CharacteristicUUIDHeartRateMeasurement
                         (Some HandleHeartRateMeasurement)])
     /\ forall (w1 : World) (b : byte),
          runHandler HandleHeartRateMeasurement srcN [x00; b] w1
          = Returned (tt, w1 ++ ((fun sink => EvSend sink (heartRate (byteZ b)))
                                   <$> first :: later)))
  /\ (exists srcN,
        addSinks (NewMetricSource svc0 CharacteristicUUIDCyclingPowerMeasurement)
                 (first :: later) w
        = Returned (srcN,
                    w ++ [EvEnableNotifications
                            CharacteristicUUIDCyclingPowerMeasurement
                            (Some HandleCyclingPowerMeasurement)])
        /\ forall (w1 : World) (b : byte),
             runHandler HandleCyclingPowerMeasurement srcN [x00; x00; b; x01] w1
             = Returned (tt, w1 ++ ((fun sink =>
                                       EvSend sink (cyclingPower (sint16_le b x01)))
                                      <$> first :: later))).
Proof.
  split.
  - eexists. split.
    + simpl. unfold bind at 1. simpl.
      rewrite addSinks_later by discriminate. reflexivity.
    + intros w1 b. unfold runHandler.
      rewrite handleHeartRateMeasurement_eq. reflexivity.
  - eexists. split.
    + simpl. unfold bind at 1. simpl.
      rewrite addSinks_later by discriminate. reflexivity.
    + intros w1 b. unfold runHandler, bind.
      rewrite handleCyclingPowerMeasurement_eq.
      assert (Hnz : sint16_le b x01 <> 0).
      { pose proof (byteZ_range b). unfold sint16_le. cbv zeta.
        change (byteZ x01) with 1.
        destruct (Z.ltb_spec (byteZ b + 256 * 1) 32768); lia. }
      destruct (Z.eqb_spec (sint16_le b x01) 0); [contradiction | reflexivity].
Qed.

(** X10.  [Name] and [notificationHandler] agree on which characteristics
    are known.  A source whose characteristic has a display name has a
    handler, chosen without a BUG line, and [Name] is that display name;
    for any other source [notificationHandler] prints the BUG line and
    returns nil, and [Name] is the library's text of the identifier between
    "<unknown: " and ">". *)
Theorem name_and_handler_agree
        (uuidString : UUID -> string) (src : MetricSource) (w : World) :
  (exists name h,
     KnownCharacteristicNames !! ch src = Some name
     /\ Name uuidString src = name
     /\ notificationHandler src w = Returned (Some h, w))
  \/ (KnownCharacteristicNames !! ch src = None
      /\ Name uuidString src
         = ("<unknown: " ++ uuidString (ch src) ++ ">")%string
      /\ notificationHandler src w
         = Returned (None, w ++ [EvBugMissingHandler (ch src)])).
Proof.
  unfold Name, notificationHandler.
  destruct (decide (ch src = CharacteristicUUIDCyclingPowerMeasurement)) as [-> | Hcp].
  { left. eexists _, _. repeat split. }
  destruct (decide (ch src = CharacteristicUUIDHeartRateMeasurement)) as [-> | Hhr].
  { left. eexists _, _. repeat split. }
  right.
  assert (Hnone : KnownCharacteristicNames !! ch src = None).
  { unfold KnownCharacteristicNames.
    rewrite !lookup_insert_ne by congruence. apply lookup_empty. }
  rewrite Hnone. repeat split.
Qed.

(** X11.  The registry is closed: every characteristic that is listed for
    a service in [KnownServiceCharacteristicUUIDs] has a display name and a
    notification handler, and the service is a known one with a display
    name of its own. *)
Theorem registry_characteristics_covered
        (service c : UUID) (chars : list UUID) :
  KnownServiceCharacteristicUUIDs !! service = Some chars ->
  c ∈ chars ->
  service ∈ KnownServiceUUIDs
  /\ is_Some (KnownServiceNames !! service)
  /\ is_Some (KnownCharacteristicNames !! c)
  /\ forall (src : MetricSource) (w : World),
       ch src = c ->
       exists h, notificationHandler src w = Returned (Some h, w).
Proof.
  intros Hlookup Hin.
  unfold KnownServiceCharacteristicUUIDs in Hlookup.
  destruct (decide (service = ServiceUUIDCyclingPower)) as [-> | Hcp].
  { rewrite lookup_insert_eq in Hlookup. injection Hlookup as <-.
    apply list_elem_of_singleton in Hin. subst c.
    split; [unfold KnownServiceUUIDs; set_solver |].
    split; [eexists; reflexivity |]. split; [eexists; reflexivity |].
    intros src w Hch. unfold notificationHandler. rewrite Hch.
    eexists. reflexivity. }
  rewrite lookup_insert_ne in Hlookup by congruence.
  destruct (decide (service = ServiceUUIDHeartRate)) as [-> | Hhr].
  { rewrite lookup_insert_eq in Hlookup. injection Hlookup as <-.
    apply list_elem_of_singleton in Hin. subst c.
    split; [unfold KnownServiceUUIDs; set_solver |].
    split; [eexists; reflexivity |]. split; [eexists; reflexivity |].
    intros src w Hch. unfold notificationHandler. rewrite Hch.
    eexists. reflexivity. }
  rewrite lookup_insert_ne, lookup_empty in Hlookup by congruence.
  discriminate.
Qed.

(** At the Heart Rate service and its measurement characteristic. *)
Lemma registry_characteristics_covered_witness :
  KnownServiceCharacteristicUUIDs !! ServiceUUIDHeartRate
  = Some [CharacteristicUUIDHeartRateMeasurement]
  /\ is_Some (KnownCharacteristicNames !! CharacteristicUUIDHeartRateMeasurement).
Proof.
  split; [reflexivity |].
  apply (registry_characteristics_covered
           ServiceUUIDHeartRate CharacteristicUUIDHeartRateMeasurement
           [CharacteristicUUIDHeartRateMeasurement]).
  - reflexivity.
  - apply list_elem_of_singleton. reflexivity.
Defined.

(** ** More on the scan *)

Lemma Scan_checked (results : list ScanResult) (a : string) :
  is_Some (addrsChecked (Scan results) !! a) <-> a ∈ Address <$> results.
Proof.
  induction results as [| r results IH] using rev_ind.
  - simpl. rewrite lookup_empty, elem_of_nil. split; [| contradiction].
    intros [v Hv]. discriminate.
  - rewrite Scan_snoc, onScanResult_checked, IH, fmap_app, elem_of_app.
    simpl. rewrite list_elem_of_singleton. tauto.
Qed.

Lemma onScanResult_seen (st : ScanState) (r : ScanResult) :
  is_Some (addrsChecked st !! Address r) -> onScanResult st r = st.
Proof.
  intros [v Hv]. unfold onScanResult. rewrite Hv. reflexivity.
Qed.

Lemma onScanResult_fresh (st : ScanState) (r : ScanResult) :
  addrsChecked st !! Address r = None ->
  stdout (onScanResult st r)
  = stdout st ++ (if decide (matchedServiceNames r = []) then []
                  else [reportOf r]).
Proof.
  intros Hfresh. unfold onScanResult. rewrite Hfresh.
  destruct (decide (matchedServiceNames r = [])) as [-> | Hne].
  - simpl. rewrite app_nil_r. reflexivity.
  - unfold reportOf.
    destruct (matchedServiceNames r) as [| n ns]; [contradiction | reflexivity].
Qed.

Lemma matchedServiceNames_some (r : ScanResult) :
  (exists s, s ∈ KnownServiceUUIDs /\ HasServiceUUID r s = true) ->
  matchedServiceNames r <> [].
Proof.
  intros (s & Hs & Hadv) Hnil.
  unfold matchedServiceNames, KnownServiceUUIDs in Hnil, Hs. simpl in Hnil.
  apply elem_of_cons in Hs as [-> | Hs];
    [| apply elem_of_cons in Hs as [-> | Hs];
       [| apply list_elem_of_singleton in Hs as ->]];
    rewrite Hadv in Hnil; simpl in Hnil;
    repeat match type of Hnil with
           | context [HasServiceUUID r ?u] =>
               destruct (HasServiceUUID r u); simpl in Hnil
           end;
    discriminate.
Qed.

Lemma foldl_onScanResult_stdout (results : list ScanResult) :
  forall st : ScanState,
    exists later,
      stdout (foldl onScanResult st results) = stdout st ++ later.
Proof.
  induction results as [| r results IH]; intros st; simpl.
  - exists []. rewrite app_nil_r. reflexivity.
  - destruct (IH (onScanResult st r)) as (l2 & ->).
    destruct (onScanResult_stdout st r) as (l1 & -> & _).
    exists (l1 ++ l2). rewrite app_assoc. reflexivity.
Qed.

(** The first result of an address that advertises a known service is
    reported. *)
Lemma first_result_reported (pre post : list ScanResult) (r : ScanResult) :
  Address r ∉ Address <$> pre ->
  matchedServiceNames r <> [] ->
  reportOf r ∈ stdout (Scan (pre ++ r :: post)).
Proof.
  intros Hfresh Hnames.
  replace (pre ++ r :: post) with ((pre ++ [r]) ++ post)
    by (rewrite <- app_assoc; reflexivity).
  unfold Scan. rewrite foldl_app. fold (Scan (pre ++ [r])).
  destruct (foldl_onScanResult_stdout post (Scan (pre ++ [r])))
    as (later & ->).
  apply elem_of_app. left.
  rewrite Scan_snoc, onScanResult_fresh.
  - destruct (decide (matchedServiceNames r = [])); [contradiction |].
    apply elem_of_app. right. apply list_elem_of_singleton. reflexivity.
  - destruct (addrsChecked (Scan pre) !! Address r) eqn:Hseen;
      [| reflexivity].
    exfalso. apply Hfresh, Scan_checked. rewrite Hseen. eauto.
Qed.

(** X12.  After a scan [addrsChecked] holds exactly the addresses of the
    scan results that came in, reported or not. *)
Theorem addrs_checked_are_addresses_seen
        (results : list ScanResult) (a : string) :
  is_Some (addrsChecked (Scan results) !! a) <-> a ∈ Address <$> results.
Proof. apply Scan_checked. Qed.

(** X13.  A device is reported when the first scan result of its address
    advertises at least one of [KnownServiceUUIDs]; the report carries the
    local name, the signal strength and the services of that first
    result. *)
Theorem scan_reports_first_result_with_service
        (pre post : list ScanResult) (r : ScanResult) :
  Address r ∉ Address <$> pre ->
  (exists s, s ∈ KnownServiceUUIDs /\ HasServiceUUID r s = true) ->
  {| reportAddress := Address r;
     reportLocalName := LocalName r;
     reportServices := String.concat "," (matchedServiceNames r);
     reportRSSI := RSSI r |} ∈ stdout (Scan (pre ++ r :: post)).
Proof.
  intros Hfresh Hadv.
  apply (first_result_reported pre post r Hfresh).
  apply matchedServiceNames_some, Hadv.
Qed.

(** A heart-rate strap seen twice, the second time under another name and
    at another strength: the report is that of the first result. *)
Lemma scan_reports_first_result_with_service_witness :
  let r := {| Address := "C8:2E:47:10:5A:01"; LocalName := "strap";
              ServiceUUIDs := [ServiceUUIDHeartRate]; RSSI := -60 |} in
  let r' := {| Address := "C8:2E:47:10:5A:01"; LocalName := "renamed";
               ServiceUUIDs := [ServiceUUIDHeartRate]; RSSI := -40 |} in
  {| reportAddress := "C8:2E:47:10:5A:01"; reportLocalName := "strap";
     reportServices := "Heart Rate"; reportRSSI := -60 |}
    ∈ stdout (Scan ([] ++ r :: [r'])).
Proof.
  apply (scan_reports_first_result_with_service
           [] [ {| Address := "C8:2E:47:10:5A:01"; LocalName := "renamed";
                   ServiceUUIDs := [ServiceUUIDHeartRate]; RSSI := -40 |} ]
           {| Address := "C8:2E:47:10:5A:01"; LocalName := "strap";
              ServiceUUIDs := [ServiceUUIDHeartRate]; RSSI := -60 |}).
  - apply not_elem_of_nil.
  - exists ServiceUUIDHeartRate. split; [| reflexivity].
    unfold KnownServiceUUIDs. rewrite !elem_of_cons. auto.
Defined.

Lemma matchedServiceNames_some_inv (r : ScanResult) :
  matchedServiceNames r <> [] ->
  exists s, s ∈ KnownServiceUUIDs /\ HasServiceUUID r s = true.
Proof.
  intros Hnames.
  destruct (HasServiceUUID r ServiceUUIDCyclingSpeedAndCadence) eqn:Hcsc.
  { eexists. split; [| exact Hcsc].
    unfold KnownServiceUUIDs. rewrite !elem_of_cons. auto. }
  destruct (HasServiceUUID r ServiceUUIDCyclingPower) eqn:Hcp.
  { eexists. split; [| exact Hcp].
    unfold KnownServiceUUIDs. rewrite !elem_of_cons. auto. }
  destruct (HasServiceUUID r ServiceUUIDHeartRate) eqn:Hhr.
  { eexists. split; [| exact Hhr].
    unfold KnownServiceUUIDs. rewrite !elem_of_cons. auto. }
  exfalso. apply Hnames, matchedServiceNames_none.
  intros s Hs. unfold KnownServiceUUIDs in Hs.
  rewrite !elem_of_cons, elem_of_nil in Hs.
  destruct Hs as [-> | [-> | [-> | []]]]; assumption.
Qed.

(** Every report is the report of the first result of its address. *)
Lemma report_is_of_first_result (results : list ScanResult) :
  forall rep,
    rep ∈ stdout (Scan results) ->
    exists pre r post,
      results = pre ++ r :: post
      /\ (Address r ∉ Address <$> pre)
      /\ rep = reportOf r
      /\ matchedServiceNames r <> [].
Proof.
  induction results as [| r results IH] using rev_ind; intros rep Hrep.
  { simpl in Hrep. apply elem_of_nil in Hrep. contradiction. }
  rewrite Scan_snoc in Hrep.
  assert (Hold : rep ∈ stdout (Scan results) ->
                 exists pre r0 post,
                   results ++ [r] = pre ++ r0 :: post
                   /\ (Address r0 ∉ Address <$> pre)
                   /\ rep = reportOf r0
                   /\ matchedServiceNames r0 <> []).
  { intros Hin. destruct (IH rep Hin) as (pre & r0 & post & -> & H1 & H2 & H3).
    exists pre, r0, (post ++ [r]).
    rewrite <- app_assoc. auto. }
  destruct (addrsChecked (Scan results) !! Address r) eqn:Hseen.
  - rewrite onScanResult_seen in Hrep by (rewrite Hseen; eauto). auto.
  - rewrite onScanResult_fresh in Hrep by exact Hseen.
    apply elem_of_app in Hrep as [Hin | Hnew]; [auto |].
    destruct (decide (matchedServiceNames r = [])) as [Hnil | Hnames].
    { apply elem_of_nil in Hnew. contradiction. }
    apply list_elem_of_singleton in Hnew. subst rep.
    exists results, r, []. repeat split; [| exact Hnames].
    intros Hin. apply Scan_checked in Hin.
    rewrite Hseen in Hin. destruct Hin; discriminate.
Qed.

(** X14.  First seen wins.  Every report of a scan is the report of the
    first scan result of its address: it carries the local name, the signal
    strength and the services of that result, which advertises at least one
    of [KnownServiceUUIDs]; later results of the address change nothing. *)
Theorem scan_report_comes_from_first_result
        (results : list ScanResult) (rep : ScanReport) :
  rep ∈ stdout (Scan results) ->
  exists pre r post,
    results = pre ++ r :: post
    /\ (Address r ∉ Address <$> pre)
    /\ reportAddress rep = Address r
    /\ reportLocalName rep = LocalName r
    /\ reportRSSI rep = RSSI r
    /\ reportServices rep = String.concat "," (matchedServiceNames r)
    /\ exists s, s ∈ KnownServiceUUIDs /\ HasServiceUUID r s = true.
Proof.
  intros Hrep.
  destruct (report_is_of_first_result results rep Hrep)
    as (pre & r & post & Hres & Hfresh & -> & Hnames).
  exists pre, r, post. repeat split; try assumption.
  apply matchedServiceNames_some_inv, Hnames.
Qed.

(** A power meter seen twice: the one report is that of the first
    result. *)
Lemma scan_report_comes_from_first_result_witness :
  let r := {| Address := "F0:99:19:3B:6C:22"; LocalName := "KICKR";
              ServiceUUIDs := [ServiceUUIDCyclingPower]; RSSI := -71 |} in
  let r' := {| Address := "F0:99:19:3B:6C:22"; LocalName := "KICKR 2";
               ServiceUUIDs := []; RSSI := -50 |} in
  exists pre first post,
    [r; r'] = pre ++ first :: post
    /\ (Address first ∉ Address <$> pre)
    /\ reportAddress (reportOf r) = Address first
    /\ reportLocalName (reportOf r) = LocalName first
    /\ reportRSSI (reportOf r) = RSSI first
    /\ reportServices (reportOf r)
       = String.concat "," (matchedServiceNames first)
    /\ exists s, s ∈ KnownServiceUUIDs /\ HasServiceUUID first s = true.
Proof.
  apply (scan_report_comes_from_first_result
           [ {| Address := "F0:99:19:3B:6C:22"; LocalName := "KICKR";
                ServiceUUIDs := [ServiceUUIDCyclingPower]; RSSI := -71 |};
             {| Address := "F0:99:19:3B:6C:22"; LocalName := "KICKR 2";
                ServiceUUIDs := []; RSSI := -50 |} ]).
  apply list_elem_of_singleton. reflexivity.
Defined.

Lemma foldl_onScanResult_seen (post : list ScanResult) :
  forall st : ScanState,
    (forall r, r ∈ post -> is_Some (addrsChecked st !! Address r)) ->
    foldl onScanResult st post = st.
Proof.
  induction post as [| r post IH]; intros st Hseen; [reflexivity |].
  simpl. rewrite onScanResult_seen.
  - apply IH. intros r' Hr'. apply Hseen. apply elem_of_cons. auto.
  - apply Hseen. apply elem_of_cons. auto.
Qed.

(** X15.  Scan results of addresses that were seen before change nothing:
    neither the reports nor [addrsChecked].  In particular a scan that sees
    the same results a second time ends in the same state. *)
Theorem scan_ignores_seen_addresses (pre post : list ScanResult) :
  (forall r, r ∈ post -> Address r ∈ Address <$> pre) ->
  Scan (pre ++ post) = Scan pre
  /\ Scan (pre ++ pre) = Scan pre.
Proof.
  intros Hseen. unfold Scan. rewrite !foldl_app. fold (Scan pre). split.
  - apply foldl_onScanResult_seen.
    intros r Hr. apply Scan_checked, Hseen, Hr.
  - apply foldl_onScanResult_seen.
    intros r Hr. apply Scan_checked, list_elem_of_fmap. eauto.
Qed.

(** A strap that keeps advertising, with a changing signal strength. *)
Lemma scan_ignores_seen_addresses_witness :
  let r := {| Address := "C8:2E:47:10:5A:01"; LocalName := "strap";
              ServiceUUIDs := [ServiceUUIDHeartRate]; RSSI := -60 |} in
  let r' := {| Address := "C8:2E:47:10:5A:01"; LocalName := "strap";
               ServiceUUIDs := [ServiceUUIDHeartRate; ServiceUUIDCyclingPower];
               RSSI := -45 |} in
  Scan ([r] ++ [r'; r']) = Scan [r] /\ Scan ([r] ++ [r]) = Scan [r].
Proof.
  apply (scan_ignores_seen_addresses
           [ {| Address := "C8:2E:47:10:5A:01"; LocalName := "strap";
                ServiceUUIDs := [ServiceUUIDHeartRate]; RSSI := -60 |} ]
           [ {| Address := "C8:2E:47:10:5A:01"; LocalName := "strap";
                ServiceUUIDs := [ServiceUUIDHeartRate; ServiceUUIDCyclingPower];
                RSSI := -45 |};
             {| Address := "C8:2E:47:10:5A:01"; LocalName := "strap";
                ServiceUUIDs := [ServiceUUIDHeartRate; ServiceUUIDCyclingPower];
                RSSI := -45 |} ]).
  intros r Hr. rewrite !elem_of_cons, elem_of_nil in Hr.
  destruct Hr as [-> | [-> | []]]; apply list_elem_of_singleton; reflexivity.
Defined.

(** X16.  The Cycling Speed and Cadence service is in [KnownServiceUUIDs]
    but has no entry in [KnownServiceNames]: a device whose first scan
    result advertises that service and neither of the other two is
    reported, with an empty list of service names. *)
Theorem scan_reports_speed_cadence_without_name
        (pre post : list ScanResult) (r : ScanResult) :
  Address r ∉ Address <$> pre ->
  HasServiceUUID r ServiceUUIDCyclingSpeedAndCadence = true ->
  HasServiceUUID r ServiceUUIDCyclingPower = false ->
  HasServiceUUID r ServiceUUIDHeartRate = false ->
  KnownServiceNames !! ServiceUUIDCyclingSpeedAndCadence = None
  /\ {| reportAddress := Address r;
        reportLocalName := LocalName r;
        reportServices := EmptyString;
        reportRSSI := RSSI r |} ∈ stdout (Scan (pre ++ r :: post)).
Proof.
  intros Hfresh Hcsc Hcp Hhr. split; [reflexivity |].
  assert (Hnames : matchedServiceNames r = [EmptyString]).
  { unfold matchedServiceNames, KnownServiceUUIDs. simpl.
    rewrite Hcsc, Hcp, Hhr. reflexivity. }
  pose proof (first_result_reported pre post r Hfresh) as Hrep.
  unfold reportOf in Hrep. rewrite Hnames in Hrep.
  apply Hrep. discriminate.
Qed.

(** A speed sensor on its own. *)
Lemma scan_reports_speed_cadence_without_name_witness :
  let r := {| Address := "D4:11:A0:0C:77:9E"; LocalName := "speed";
              ServiceUUIDs := [ServiceUUIDCyclingSpeedAndCadence];
              RSSI := -80 |} in
  stdout (Scan ([] ++ r :: []))
  = [ {| reportAddress := "D4:11:A0:0C:77:9E"; reportLocalName := "speed";
         reportServices := EmptyString; reportRSSI := -80 |} ]
  /\ {| reportAddress := "D4:11:A0:0C:77:9E"; reportLocalName := "speed";
        reportServices := EmptyString; reportRSSI := -80 |}
       ∈ stdout (Scan ([] ++ r :: [])).
Proof.
  split; [reflexivity |].
  apply (scan_reports_speed_cadence_without_name [] []
           {| Address := "D4:11:A0:0C:77:9E"; LocalName := "speed";
              ServiceUUIDs := [ServiceUUIDCyclingSpeedAndCadence];
              RSSI := -80 |}).
  - apply not_elem_of_nil.
  - reflexivity.
  - reflexivity.
  - reflexivity.
Defined.

(** X17.  Reports come out in the order in which the devices were first
    seen: the addresses reported are a subsequence of the addresses of the
    scan results. *)
Theorem scan_reports_in_order_of_arrival (results : list ScanResult) :
  (reportAddress <$> stdout (Scan results)) `sublist_of` (Address <$> results)
  /\ (length (stdout (Scan results)) <= length results)%nat.
Proof.
  assert (Hsub : (reportAddress <$> stdout (Scan results))
                   `sublist_of` (Address <$> results)).
  { induction results as [| r results IH] using rev_ind.
    - simpl. constructor.
    - rewrite Scan_snoc, fmap_app.
      destruct (onScanResult_stdout (Scan results) r)
        as (new & -> & Hlen & Hnew).
      rewrite fmap_app. apply sublist_app; [exact IH |].
      destruct new as [| rep [| rep' new']]; simpl in Hlen; [| | lia].
      + apply sublist_nil_l.
      + destruct (Hnew rep) as (Haddr & _);
          [apply list_elem_of_singleton; reflexivity |].
        simpl. rewrite Haddr. reflexivity. }
  split; [exact Hsub |].
  apply sublist_length in Hsub. rewrite !length_fmap in Hsub. exact Hsub.
Qed.

(** ** The repeatable flag *)

Lemma string_append_assoc (a b c : string) :
  ((a ++ b) ++ c = a ++ (b ++ c))%string.
Proof.
  induction a as [| x a IH]; [reflexivity |].
  change (String x ((a ++ b) ++ c) = String x (a ++ (b ++ c)))%string.
  rewrite IH. reflexivity.
Qed.

Lemma concat_snoc (sep v : string) (l : list string) :
  String.concat sep (l ++ [v])
  = match l with
    | [] => v
    | _ :: _ => (String.concat sep l ++ sep ++ v)%string
    end.
Proof.
  induction l as [| x l IH]; [reflexivity |].
  destruct l as [| y l']; [reflexivity |].
  change (String.concat sep ((x :: y :: l') ++ [v]))
    with (x ++ sep ++ String.concat sep ((y :: l') ++ [v]))%string.
  rewrite IH.
  change (String.concat sep (x :: y :: l'))
    with (x ++ sep ++ String.concat sep (y :: l'))%string.
  rewrite !string_append_assoc. reflexivity.
Qed.

Lemma foldl_Set (values : list string) :
  forall i : repeatableFlag,
    foldl (fun i value => fst (repeatableFlag_Set i value)) i values
    = i ++ values.
Proof.
  induction values as [| v values IH]; intros i; simpl.
  - rewrite app_nil_r. reflexivity.
  - rewrite IH, <- app_assoc. reflexivity.
Qed.

(** X18.  The flag collects its occurrences: [Set] never fails and appends,
    so parsing keeps every value, in order, duplicates included; and
    [String] after [Set] is the old text, a comma and the new value, with no
    comma when the flag was empty. *)
Theorem repeatable_flag_collects
        (values : list string) (i : repeatableFlag) (value : string) :
  parseOccurrences values = values
  /\ snd (repeatableFlag_Set i value) = None
  /\ repeatableFlag_String (fst (repeatableFlag_Set i value))
     = match i with
       | [] => value
       | _ :: _ => (repeatableFlag_String i ++ "," ++ value)%string
       end
  /\ repeatableFlag_String (parseOccurrences (values ++ [value]))
     = match values with
       | [] => value
       | _ :: _ =>
           (repeatableFlag_String (parseOccurrences values) ++ "," ++ value)%string
       end.
Proof.
  assert (Hparse : forall vs, parseOccurrences vs = vs).
  { intros vs. unfold parseOccurrences. apply foldl_Set. }
  split; [apply Hparse |]. split; [reflexivity |].
  split; [apply concat_snoc |].
  rewrite !Hparse. apply concat_snoc.
Qed.

(** ** Setting up a connected device *)

Lemma bugLines_app (w1 w2 : World) :
  bugLines (w1 ++ w2) = (bugLines w1 + bugLines w2)%nat.
Proof. unfold bugLines. rewrite List.filter_app. apply length_app. Qed.

(** One characteristic: one line, one source with the shared sink, one
    subscription; a BUG line exactly when the characteristic has no
    handler. *)
Lemma setupCharacteristic_spec
      (metricsChan : Chan) (service char : UUID) (s : Session) (w : World) :
  exists s' log,
    setupCharacteristic metricsChan service char s w = Returned (s', w ++ log)
    /\ sources s'
       = sources s ++ [ {| sinks := [metricsChan]; svc := service; ch := char |} ]
    /\ length (console s') = S (length (console s))
    /\ subscriptions log = 1%nat
    /\ deliveries log = []
    /\ bugLines log
       = (if decide (KnownCharacteristicNames !! char = None) then 1 else 0)%nat.
Proof.
  unfold setupCharacteristic.
  destruct (AddSink_first_cases service char metricsChan w)
    as (log & Hfirst & Hlog).
  eexists _, log. unfold bind. rewrite Hfirst. unfold ret.
  split; [reflexivity |]. simpl.
  split; [reflexivity |].
  split; [rewrite length_app; simpl; lia |].
  destruct Hlog as [[-> ->] | [[-> ->] | (Hcp & Hhr & ->)]];
    repeat split.
  destruct (decide (KnownCharacteristicNames !! char = None)) as [_ | Hk];
    [reflexivity |].
  exfalso. apply Hk. unfold KnownCharacteristicNames.
  rewrite !lookup_insert_ne by congruence. apply lookup_empty.
Qed.

Lemma setupCharacteristics_spec (metricsChan : Chan) (service : UUID)
      (chars : list UUID) :
  forall (s : Session) (w : World),
    exists s' log,
      forRangeS chars (setupCharacteristic metricsChan service) s w
      = Returned (s', w ++ log)
      /\ sources s'
         = sources s
           ++ ((fun c => {| sinks := [metricsChan]; svc := service; ch := c |})
                 <$> chars)
      /\ length (console s') = (length (console s) + length chars)%nat
      /\ subscriptions log = length chars
      /\ deliveries log = []
      /\ bugLines log
         = length (List.filter
                     (fun c => bool_decide (KnownCharacteristicNames !! c = None))
                     chars).
Proof.
  induction chars as [| c chars IH]; intros s w; simpl.
  - exists s, []. unfold ret. rewrite !app_nil_r.
    repeat split. lia.
  - destruct (setupCharacteristic_spec metricsChan service c s w)
      as (s1 & log1 & Hrun1 & Hsrc1 & Hcon1 & Hsub1 & Hdel1 & Hbug1).
    destruct (IH s1 (w ++ log1))
      as (s2 & log2 & Hrun2 & Hsrc2 & Hcon2 & Hsub2 & Hdel2 & Hbug2).
    exists s2, (log1 ++ log2). unfold bind. rewrite Hrun1, Hrun2.
    rewrite app_assoc. split; [reflexivity |].
    rewrite Hsrc2, Hsrc1, <- app_assoc.
    split; [reflexivity |]. split; [lia |].
    rewrite subscriptions_app, deliveries_app, bugLines_app.
    rewrite Hsub1, Hsub2, Hdel1, Hdel2, Hbug1, Hbug2.
    split; [reflexivity |]. split; [reflexivity |].
    destruct (decide (KnownCharacteristicNames !! c = None)) as [Hn | Hn].
    + rewrite bool_decide_eq_true_2 by exact Hn. reflexivity.
    + rewrite bool_decide_eq_false_2 by exact Hn. reflexivity.
Qed.

Lemma filter_pairs_length (u : UUID) (chars : list UUID) :
  length (List.filter (fun p : UUID * UUID => unnamed (snd p))
                      ((fun c => (u, c)) <$> chars))
  = length (List.filter unnamed chars).
Proof.
  induction chars as [| c chars IH]; [reflexivity |].
  csimpl. destruct (unnamed c); simpl; rewrite IH; reflexivity.
Qed.

Lemma setupService_spec
      (uuidString : UUID -> string) (metricsChan : Chan)
      (service : DeviceService) (chars : list UUID) (s : Session) (w : World) :
  DiscoverCharacteristics service (knownCharsOf service) = Some chars ->
  exists s' log,
    setupService uuidString metricsChan service s w = Returned (s', w ++ log)
    /\ sources s'
       = sources s
         ++ (sourceFor metricsChan <$> ((fun c => (serviceUUID service, c)) <$> chars))
    /\ length (console s') = (length (console s) + 1 + length chars)%nat
    /\ subscriptions log = length chars
    /\ deliveries log = []
    /\ bugLines log = length (List.filter unnamed chars).
Proof.
  intros Hchars. unfold setupService.
  fold (knownCharsOf service). rewrite Hchars. unfold bind at 1. simpl.
  match goal with
  | |- context [forRangeS chars _ ?s0 w] =>
      destruct (setupCharacteristics_spec metricsChan (serviceUUID service)
                  chars s0 w)
        as (s' & log & Hrun & Hsrc & Hcon & Hsub & Hdel & Hbug);
      assert (Hlen : length (console s0) = S (length (console s)));
      [ destruct (KnownServiceNames !! serviceUUID service);
        simpl; rewrite length_app; simpl; lia |];
      assert (Hsame : sources s0 = sources s);
      [ destruct (KnownServiceNames !! serviceUUID service); reflexivity |]
  end.
  exists s', log. rewrite Hrun. split; [reflexivity |].
  rewrite Hsrc, Hsame, <- list_fmap_compose.
  split; [reflexivity |]. split; [lia |]. auto.
Qed.

Lemma setupService_fail
      (uuidString : UUID -> string) (metricsChan : Chan)
      (service : DeviceService) (s : Session) (w : World) :
  DiscoverCharacteristics service (knownCharsOf service) = None ->
  setupService uuidString metricsChan service s w = Panicked.
Proof.
  intros Hfail. unfold setupService. fold (knownCharsOf service).
  rewrite Hfail. reflexivity.
Qed.

Lemma discovered_cons (service : DeviceService)
      (services : list DeviceService) (chars : list UUID) :
  DiscoverCharacteristics service (knownCharsOf service) = Some chars ->
  discovered (service :: services)
  = ((fun c => (serviceUUID service, c)) <$> chars) ++ discovered services.
Proof.
  intros Hchars. unfold discovered. rewrite bind_cons.
  fold (knownCharsOf service). rewrite Hchars. reflexivity.
Qed.

Lemma setupServices_spec
      (uuidString : UUID -> string) (metricsChan : Chan)
      (services : list DeviceService) :
  Forall (fun service =>
            is_Some (DiscoverCharacteristics service (knownCharsOf service)))
         services ->
  forall (s : Session) (w : World),
    exists s' log,
      forRangeS services (setupService uuidString metricsChan) s w
      = Returned (s', w ++ log)
      /\ sources s'
         = sources s ++ (sourceFor metricsChan <$> discovered services)
      /\ length (console s')
         = (length (console s) + length services
            + length (discovered services))%nat
      /\ subscriptions log = length (discovered services)
      /\ deliveries log = []
      /\ bugLines log
         = length (List.filter (fun p : UUID * UUID => unnamed (snd p))
                               (discovered services)).
Proof.
  induction 1 as [| service services [chars Hchars] _ IH]; intros s w.
  - simpl. exists s, []. unfold ret. rewrite !app_nil_r. repeat split. lia.
  - rewrite (discovered_cons service services chars Hchars).
    cbn [forRangeS length].
    destruct (setupService_spec uuidString metricsChan service chars s w Hchars)
      as (s1 & log1 & Hrun1 & Hsrc1 & Hcon1 & Hsub1 & Hdel1 & Hbug1).
    destruct (IH s1 (w ++ log1))
      as (s2 & log2 & Hrun2 & Hsrc2 & Hcon2 & Hsub2 & Hdel2 & Hbug2).
    exists s2, (log1 ++ log2). unfold bind. rewrite Hrun1, Hrun2.
    rewrite app_assoc. split; [reflexivity |].
    rewrite Hsrc2, Hsrc1, fmap_app, <- app_assoc.
    split; [reflexivity |].
    rewrite !length_app, !length_fmap.
    split; [rewrite Hcon2, Hcon1; lia |].
    rewrite subscriptions_app, deliveries_app, bugLines_app.
    rewrite Hsub1, Hsub2, Hdel1, Hdel2, Hbug1, Hbug2.
    split; [reflexivity |]. split; [reflexivity |].
    rewrite List.filter_app, length_app, filter_pairs_length. reflexivity.
Qed.

Lemma setupServices_fail
      (uuidString : UUID -> string) (metricsChan : Chan)
      (services : list DeviceService) :
  Exists (fun service =>
            DiscoverCharacteristics service (knownCharsOf service) = None)
         services ->
  forall (s : Session) (w : World),
    forRangeS services (setupService uuidString metricsChan) s w = Panicked.
Proof.
  induction services as [| service services IH]; intros Hex s w.
  { inversion Hex. }
  simpl. unfold bind.
  destruct (DiscoverCharacteristics service (knownCharsOf service))
    as [chars |] eqn:Hchars.
  - destruct (setupService_spec uuidString metricsChan service chars s w Hchars)
      as (s1 & log1 & -> & _).
    apply IH. apply Exists_cons in Hex as [Hhead | Htail]; [| exact Htail].
    congruence.
  - rewrite setupService_fail by exact Hchars. reflexivity.
Qed.

Lemma discovery_all_or_some_fails (services : list DeviceService) :
  Forall (fun service =>
            is_Some (DiscoverCharacteristics service (knownCharsOf service)))
         services
  \/ Exists (fun service =>
               DiscoverCharacteristics service (knownCharsOf service) = None)
            services.
Proof.
  induction services as [| service services [IH | IH]].
  - left. constructor.
  - destruct (DiscoverCharacteristics service (knownCharsOf service))
      as [chars |] eqn:Hchars.
    + left. constructor; [rewrite Hchars; eauto | exact IH].
    + right. apply Exists_cons. auto.
  - right. apply Exists_cons. auto.
Qed.

(** The whole set-up of a device whose discoveries all succeed. *)
Lemma setupDevice_spec
      (uuidString : UUID -> string) (metricsChan : Chan) (device : Device)
      (services : list DeviceService) (s : Session) (w : World) :
  DiscoverServices device KnownServiceUUIDs = Some services ->
  Forall (fun service =>
            is_Some (DiscoverCharacteristics service (knownCharsOf service)))
         services ->
  exists s' log,
    setupDevice uuidString metricsChan device s w = Returned (s', w ++ log)
    /\ sources s'
       = sources s ++ (sourceFor metricsChan <$> discovered services)
    /\ length (console s')
       = (length (console s) + 1 + length services
          + length (discovered services))%nat
    /\ subscriptions log = length (discovered services)
    /\ deliveries log = []
    /\ bugLines log
       = length (List.filter (fun p : UUID * UUID => unnamed (snd p))
                             (discovered services)).
Proof.
  intros Hservices Hall. unfold setupDevice. rewrite Hservices.
  unfold bind at 1. simpl.
  match goal with
  | |- context [forRangeS services _ ?s0 w] =>
      destruct (setupServices_spec uuidString metricsChan services Hall s0 w)
        as (s' & log & Hrun & Hsrc & Hcon & Hsub & Hdel & Hbug)
  end.
  exists s', log. rewrite Hrun. split; [reflexivity |].
  split; [exact Hsrc |].
  split; [rewrite Hcon; simpl; rewrite length_app; simpl; lia |]. auto.
Qed.

Lemma knownChars_named (service : DeviceService) (c : UUID) :
  c ∈ knownCharsOf service -> unnamed c = false.
Proof.
  unfold knownCharsOf, KnownServiceCharacteristicUUIDs.
  destruct (decide (serviceUUID service = ServiceUUIDCyclingPower)) as [-> | Hcp].
  { rewrite lookup_insert_eq. simpl. intros ->%list_elem_of_singleton.
    reflexivity. }
  rewrite lookup_insert_ne by congruence.
  destruct (decide (serviceUUID service = ServiceUUIDHeartRate)) as [-> | Hhr].
  { rewrite lookup_insert_eq. simpl. intros ->%list_elem_of_singleton.
    reflexivity. }
  rewrite lookup_insert_ne, lookup_empty by congruence. simpl.
  intros Hin. apply elem_of_nil in Hin. contradiction.
Qed.

Lemma filter_none_length {A} (f : A -> bool) (l : list A) :
  (forall x, x ∈ l -> f x = false) -> length (List.filter f l) = 0%nat.
Proof.
  induction l as [| x l IH]; intros Hall; [reflexivity |].
  simpl. rewrite Hall by (apply elem_of_cons; auto).
  apply IH. intros y Hy. apply Hall, elem_of_cons. auto.
Qed.

(** X19.  When the discoveries succeed, the set-up of a device makes one
    source for each characteristic the device answers with, in order, each
    with the shared metrics channel as its only sink, and subscribes once
    for each; it sends no metric, and prints one line for the device, one
    for each service and one for each characteristic. *)
Theorem setup_subscribes_each_characteristic
        (uuidString : UUID -> string) (metricsChan : Chan) (device : Device)
        (services : list DeviceService) (s : Session) (w : World) :
  DiscoverServices device KnownServiceUUIDs = Some services ->
  Forall (fun service =>
            is_Some (DiscoverCharacteristics service (knownCharsOf service)))
         services ->
  exists s' w',
    setupDevice uuidString metricsChan device s w = Returned (s', w')
    /\ sources s'
       = sources s
         ++ ((fun p => {| sinks := [metricsChan]; svc := fst p; ch := snd p |})
               <$> discovered services)
    /\ subscriptions w'
       = (subscriptions w + length (discovered services))%nat
    /\ deliveries w' = deliveries w
    /\ length (console s')
       = (length (console s) + 1 + length services
          + length (discovered services))%nat.
Proof.
  intros Hservices Hall.
  destruct (setupDevice_spec uuidString metricsChan device services s w
              Hservices Hall)
    as (s' & log & Hrun & Hsrc & Hcon & Hsub & Hdel & _).
  exists s', (w ++ log). split; [exact Hrun |].
  split; [exact Hsrc |].
  rewrite subscriptions_app, deliveries_app, Hsub, Hdel, app_nil_r. auto.
Qed.

(** A device with the heart-rate and the cycling-power service, each
    answering with its measurement characteristic. *)
Lemma setup_subscribes_each_characteristic_witness :
  let answer := fun filter : list UUID => Some filter in
  let device :=
    {| DiscoverServices := fun _ =>
         Some [ {| serviceUUID := ServiceUUIDHeartRate;
                   DiscoverCharacteristics := answer |};
                {| serviceUUID := ServiceUUIDCyclingPower;
                   DiscoverCharacteristics := answer |} ] |} in
  exists s' w',
    setupDevice (fun _ => "?"%string) 7%nat device
                {| console := []; sources := [] |} []
    = Returned (s', w')
    /\ sources s'
       = [ {| sinks := [7%nat]; svc := ServiceUUIDHeartRate;
              ch := CharacteristicUUIDHeartRateMeasurement |};
           {| sinks := [7%nat]; svc := ServiceUUIDCyclingPower;
              ch := CharacteristicUUIDCyclingPowerMeasurement |} ]
    /\ subscriptions w' = 2%nat
    /\ deliveries w' = []
    /\ length (console s') = 5%nat.
Proof.
  apply (setup_subscribes_each_characteristic
           (fun _ => "?"%string) 7%nat
           {| DiscoverServices := fun _ =>
                Some [ {| serviceUUID := ServiceUUIDHeartRate;
                          DiscoverCharacteristics := fun filter => Some filter |};
                       {| serviceUUID := ServiceUUIDCyclingPower;
                          DiscoverCharacteristics := fun filter => Some filter |} ] |}
           [ {| serviceUUID := ServiceUUIDHeartRate;
                DiscoverCharacteristics := fun filter => Some filter |};
             {| serviceUUID := ServiceUUIDCyclingPower;
                DiscoverCharacteristics := fun filter => Some filter |} ]
           {| console := []; sources := [] |} []).
  - reflexivity.
  - repeat constructor; eexists; reflexivity.
Defined.

(** X20.  The set-up of a device panics exactly when a discovery fails:
    the discovery of the services, or the discovery of the characteristics
    of one of the services, also when services before that one were set up
    and subscribed already. *)
Theorem setup_panics_iff_discovery_fails
        (uuidString : UUID -> string) (metricsChan : Chan) (device : Device)
        (s : Session) (w : World) :
  setupDevice uuidString metricsChan device s w = Panicked
  <-> DiscoverServices device KnownServiceUUIDs = None
      \/ exists services,
           DiscoverServices device KnownServiceUUIDs = Some services
           /\ Exists (fun service =>
                        DiscoverCharacteristics service (knownCharsOf service)
                        = None)
                     services.
Proof.
  split.
  - intros Hpanic.
    destruct (DiscoverServices device KnownServiceUUIDs) as [services |] eqn:Hs;
      [right | left; reflexivity].
    exists services. split; [reflexivity |].
    destruct (discovery_all_or_some_fails services) as [Hall | Hex];
      [| exact Hex].
    destruct (setupDevice_spec uuidString metricsChan device services s w
                Hs Hall) as (s' & log & Hrun & _).
    rewrite Hrun in Hpanic. discriminate.
  - intros [Hnone | (services & Hs & Hex)]; unfold setupDevice.
    + rewrite Hnone. reflexivity.
    + rewrite Hs. unfold bind at 1. simpl.
      apply setupServices_fail, Hex.
Qed.

(** X21.  The set-up prints the BUG line once for each characteristic,
    among those the device answers with, that has no display name.  A
    device that answers only with characteristics that were asked for gets
    no BUG line; a service without an entry in
    [KnownServiceCharacteristicUUIDs] is asked with a nil filter. *)
Theorem setup_bug_lines
        (uuidString : UUID -> string) (metricsChan : Chan) (device : Device)
        (services : list DeviceService) (s : Session) (w : World) :
  DiscoverServices device KnownServiceUUIDs = Some services ->
  Forall (fun service =>
            is_Some (DiscoverCharacteristics service (knownCharsOf service)))
         services ->
  exists s' w',
    setupDevice uuidString metricsChan device s w = Returned (s', w')
    /\ bugLines w'
       = (bugLines w
          + length (List.filter (fun p : UUID * UUID => unnamed (snd p))
                                (discovered services)))%nat
    /\ ((forall service chars c,
           service ∈ services ->
           DiscoverCharacteristics service (knownCharsOf service) = Some chars ->
           c ∈ chars -> c ∈ knownCharsOf service) ->
        bugLines w' = bugLines w)
    /\ (forall service,
          serviceUUID service = ServiceUUIDCyclingSpeedAndCadence ->
          knownCharsOf service = []).
Proof.
  intros Hservices Hall.
  destruct (setupDevice_spec uuidString metricsChan device services s w
              Hservices Hall)
    as (s' & log & Hrun & _ & _ & _ & _ & Hbug).
  exists s', (w ++ log). split; [exact Hrun |].
  rewrite bugLines_app, Hbug. split; [reflexivity |]. split.
  - intros Hwithin. rewrite filter_none_length; [lia |].
    intros [u c] Hin. simpl.
    apply list_elem_of_bind in Hin as (service & Hin & Hservice).
    destruct (DiscoverCharacteristics service
                (default [] (KnownServiceCharacteristicUUIDs
                               !! serviceUUID service)))
      as [chars |] eqn:Hchars.
    + apply list_elem_of_fmap in Hin as (c' & [= -> ->] & Hc').
      apply (knownChars_named service).
      apply (Hwithin service chars c' Hservice Hchars Hc').
    + apply elem_of_nil in Hin. contradiction.
  - intros service Hcsc. unfold knownCharsOf. rewrite Hcsc. reflexivity.
Qed.

(** A device that answers, for the Cycling Speed and Cadence service, with
    the measurement characteristic of that service (0x2A5B): one BUG
    line. *)
Lemma setup_bug_lines_witness :
  let device :=
    {| DiscoverServices := fun _ =>
         Some [ {| serviceUUID := ServiceUUIDCyclingSpeedAndCadence;
                   DiscoverCharacteristics := fun _ => Some [0x2A5B%N] |} ] |} in
  exists s' w',
    setupDevice (fun _ => "?"%string) 7%nat device
                {| console := []; sources := [] |} []
    = Returned (s', w')
    /\ bugLines w' = 1%nat
    /\ w' = [EvBugMissingHandler 0x2A5B%N; EvEnableNotifications 0x2A5B%N None].
Proof.
  destruct (setup_bug_lines
              (fun _ => "?"%string) 7%nat
              {| DiscoverServices := fun _ =>
                   Some [ {| serviceUUID := ServiceUUIDCyclingSpeedAndCadence;
                             DiscoverCharacteristics :=
                               fun _ => Some [0x2A5B%N] |} ] |}
              [ {| serviceUUID := ServiceUUIDCyclingSpeedAndCadence;
                   DiscoverCharacteristics := fun _ => Some [0x2A5B%N] |} ]
              {| console := []; sources := [] |} [])
    as (s' & w' & Hrun & Hbug & _).
  - reflexivity.
  - repeat constructor; eexists; reflexivity.
  - exists s', w'. split; [exact Hrun |]. split; [exact Hbug |].
    vm_compute in Hrun. injection Hrun as _ <-. reflexivity.
Defined.

(** ** The sign of a 16-bit heart rate *)

(** X22.  The 16-bit heart rate is read as a signed number.  When bit 0 of
    the flags is set, the reading is not dropped by the contact test and
    byte 2 is 0x80 or more, the value sent is bytes 1-2 minus 65536, a
    negative heart rate. *)
Theorem heart_rate_sixteen_bit_is_signed
        (src : MetricSource) (w : World)
        (flag b1 b2 : byte) (rest : list byte) :
  Z.testbit (byteZ flag) 0 = true ->
  Z.testbit (byteZ flag) 2 && negb (Z.testbit (byteZ flag) 1) = false ->
  128 <= byteZ b2 ->
  handleHeartRateMeasurement src (flag :: b1 :: b2 :: rest) w
  = Returned (tt, w ++ fanout src
                         (heartRate (byteZ b1 + 256 * byteZ b2 - 65536)))
  /\ byteZ b1 + 256 * byteZ b2 - 65536 < 0.
Proof.
  intros Hsize Hgate Hhigh.
  pose proof (byteZ_range b1). pose proof (byteZ_range b2).
  rewrite handleHeartRateMeasurement_eq.
  rewrite contactSupported_testbit, contactFound_testbit, is16Bit_testbit.
  rewrite Hgate, Hsize. split; [| lia].
  unfold sint16_le. cbv zeta.
  destruct (Z.ltb_spec (byteZ b1 + 256 * byteZ b2) 32768); [lia | reflexivity].
Qed.

(** At the payload [0x01, 0xff, 0xff]: a heart rate of -1. *)
Lemma heart_rate_sixteen_bit_is_signed_witness :
  Z.testbit (byteZ x01) 0 = true
  /\ 128 <= byteZ xff
  /\ handleHeartRateMeasurement probe [x01; xff; xff] []
     = Returned (tt, [EvSend 7%nat (heartRate (-1))]).
Proof.
  split; [reflexivity |]. split; [vm_compute; discriminate |].
  apply (heart_rate_sixteen_bit_is_signed probe [] x01 xff xff []).
  - reflexivity.
  - reflexivity.
  - vm_compute. discriminate.
Defined.
